(** * Label verifier: a shallow embedding of [backend/app.py]

    The matching engine of the label verifier (text normalisation,
    percentage and volume extraction, the four field matchers and the
    orchestrating request handler) is embedded function by function.

    Modelling choices.
    - Text: a Python [str] is a [string] whose characters are read as the
      code points 0..255.  On that range [str.isspace], the class [\s],
      the class [\d] and [str.lower] are the tables given below.
    - Numbers: a Python [float] is a binary64 value, a [spec_float] with
      precision 53 and maximal exponent 1024, and every operation rounds
      to nearest, ties to even, as the interpreter does.
    - Regular expressions: a small backtracking matcher with the greedy,
      leftmost-first discipline of the [re] module; [re.findall] and
      [re.sub] scan from left to right over it.
    - The request: [request.form] and [request.files] are finite maps; the
      image decoder and the OCR engine are parameters of the handler. *)

From Stdlib Require Import ZArith List Bool Ascii String Lia Sorted.
From Stdlib Require Import Floats.SpecFloat.
From stdpp Require Import gmap strings.

Import ListNotations.
Local Open Scope string_scope.
Local Open Scope nat_scope.

(* ------------------------------------------------------------------ *)
(** ** Characters *)

Module Char.

Definition code (c : ascii) : nat := nat_of_ascii c.

(** [str.isspace] and the class [\s]: TAB..CR, FS..US, SPACE, NEL, NBSP. *)
Definition isspace (c : ascii) : bool :=
  let n := code c in
  ((9 <=? n) && (n <=? 13)) || ((28 <=? n) && (n <=? 32))
  || (n =? 133) || (n =? 160).

(** The class [\d]. *)
Definition isdigit (c : ascii) : bool :=
  let n := code c in (48 <=? n) && (n <=? 57).

Definition isupper (c : ascii) : bool :=
  let n := code c in
  ((65 <=? n) && (n <=? 90))
  || ((192 <=? n) && (n <=? 222) && negb (n =? 215)).

(** One character of [str.lower]. *)
Definition lower (c : ascii) : ascii :=
  if isupper c then ascii_of_nat (code c + 32) else c.

Definition digit_value (c : ascii) : Z := Z.of_nat (code c) - 48.

End Char.

(* ------------------------------------------------------------------ *)
(** ** String built-ins *)

(** [s.lower()].  On the code points 0..255 lowercasing works character
    by character and keeps the length of the string; beyond that range it
    can lengthen a string and look at the context of a character, so the
    properties below that compare a text with a piece of it are stated
    on lowercased text. *)
Fixpoint str_lower (s : string) : string :=
  match s with
  | EmptyString => EmptyString
  | String c t => String (Char.lower c) (str_lower t)
  end.

Fixpoint str_lstrip (s : string) : string :=
  match s with
  | EmptyString => EmptyString
  | String c t => if Char.isspace c then str_lstrip t else s
  end.

Fixpoint str_rstrip (s : string) : string :=
  match s with
  | EmptyString => EmptyString
  | String c t =>
      match str_rstrip t with
      | EmptyString => if Char.isspace c then EmptyString else String c EmptyString
      | r => String c r
      end
  end.

(** [s.strip()] *)
Definition str_strip (s : string) : string := str_rstrip (str_lstrip s).

(** [a in b] on strings: [a] occurs in [b] as a contiguous run. *)
Fixpoint str_in (a b : string) : bool :=
  String.prefix a b ||
  match b with
  | EmptyString => false
  | String _ t => str_in a t
  end.

(** [s.split()]: the maximal runs of non-whitespace characters, in
    order.  A character that is not whitespace either closes its token
    (end of string or whitespace next) or joins the token that starts
    right after it. *)
Fixpoint str_split (s : string) : list string :=
  match s with
  | EmptyString => []
  | String c t =>
      if Char.isspace c then str_split t
      else
        match t with
        | EmptyString => [String c EmptyString]
        | String c' _ =>
            if Char.isspace c' then String c EmptyString :: str_split t
            else
              match str_split t with
              | w :: ws => String c w :: ws
              | [] => [String c EmptyString]
              end
        end
  end.

(** [s[:n]] *)
Fixpoint str_take (n : nat) (s : string) : string :=
  match n, s with
  | S k, String c t => String c (str_take k t)
  | _, _ => EmptyString
  end.

(** Truthiness of a string: [not s] holds of the empty string only. *)
Definition str_not (s : string) : bool :=
  match s with EmptyString => true | _ => false end.

(* ------------------------------------------------------------------ *)
(** ** Regular expressions

    The patterns of the program use character classes, concatenation,
    alternation, the greedy quantifiers [?], [*], [+] and capturing
    groups.  [rmatch] is a backtracking matcher in continuation style:
    the first alternative is tried first, a quantifier takes as many
    repetitions as it can and gives them back one by one.  None of the
    program's patterns matches the empty string. *)

Inductive regex : Type :=
| REps
| RChar (p : ascii -> bool)
| RSeq (a b : regex)
| RAlt (a b : regex)
| RStar (a : regex)
| RGroup (i : nat) (a : regex).

Definition ROpt (a : regex) : regex := RAlt a REps.
Definition RPlus (a : regex) : regex := RSeq a (RStar a).
Definition RLit (c : ascii) : regex := RChar (Ascii.eqb c).

(** Captured groups, most recent first. *)
Definition groups := list (nat * string).

Fixpoint group (i : nat) (g : groups) : string :=
  match g with
  | [] => EmptyString
  | (j, s) :: g' => if Nat.eqb i j then s else group i g'
  end.

Fixpoint rmatch {R : Type} (r : regex) (s : string) (g : groups)
    (k : string -> groups -> option R) {struct r} : option R :=
  match r with
  | REps => k s g
  | RChar p =>
      match s with
      | String c t => if p c then k t g else None
      | EmptyString => None
      end
  | RSeq a b => rmatch a s g (fun s' g' => rmatch b s' g' k)
  | RAlt a b =>
      match rmatch a s g k with
      | Some x => Some x
      | None => rmatch b s g k
      end
  | RStar a =>
      (fix loop (n : nat) (s : string) (g : groups) {struct n} : option R :=
         match n with
         | O => k s g
         | S n' =>
             match rmatch a s g
                     (fun s' g' =>
                        if String.length s' <? String.length s
                        then loop n' s' g' else None) with
             | Some x => Some x
             | None => k s g
             end
         end) (String.length s) s g
  | RGroup i a =>
      rmatch a s g
        (fun s' g' =>
           k s' ((i, str_take (String.length s - String.length s') s) :: g'))
  end.

(** [pattern.match(s)] at the start of [s]: the length of the match and
    its groups. *)
Definition re_match (r : regex) (s : string) : option (nat * groups) :=
  rmatch r s [] (fun s' g => Some (String.length s - String.length s', g)).

(** The scan shared by [re.finditer], [re.findall] and [re.sub]: try the
    pattern at each position from left to right; after a match of [n]
    characters the next attempt is [n] characters further.  [skip] counts
    the characters still covered by the last match, [pos] is the index of
    the first character of [s] in the whole text. *)
Fixpoint re_finditer_from (r : regex) (pos skip : nat) (s : string)
  : list (nat * groups) :=
  match s with
  | EmptyString => []
  | String _ t =>
      match skip with
      | S k => re_finditer_from r (S pos) k t
      | O =>
          match re_match r s with
          | Some (S n, g) => (pos, g) :: re_finditer_from r (S pos) n t
          | _ => re_finditer_from r (S pos) 0 t
          end
      end
  end.

Definition re_finditer (r : regex) (s : string) : list (nat * groups) :=
  re_finditer_from r 0 0 s.

(** [re.findall] for a pattern with one group: the text of group 1. *)
Definition re_findall1 (r : regex) (s : string) : list string :=
  map (fun m => group 1 (snd m)) (re_finditer r s).

(** [re.findall] for a pattern with two groups: the pairs of texts. *)
Definition re_findall2 (r : regex) (s : string) : list (string * string) :=
  map (fun m => (group 1 (snd m), group 2 (snd m))) (re_finditer r s).

(** [re.sub(r, repl, s)] *)
Fixpoint re_sub_from (r : regex) (repl : string) (skip : nat) (s : string)
  : string :=
  match s with
  | EmptyString => EmptyString
  | String c t =>
      match skip with
      | S k => re_sub_from r repl k t
      | O =>
          match re_match r s with
          | Some (S n, _) => repl ++ re_sub_from r repl n t
          | _ => String c (re_sub_from r repl 0 t)
          end
      end
  end.

Definition re_sub (r : regex) (repl s : string) : string :=
  re_sub_from r repl 0 s.

Definition re_space : regex := RChar Char.isspace.
Definition re_digit : regex := RChar Char.isdigit.

(** [\d+\.?\d*] *)
Definition re_number : regex :=
  RSeq (RPlus re_digit) (RSeq (ROpt (RLit ".")) (RStar re_digit)).

(* ------------------------------------------------------------------ *)
(** ** normalize_text *)

Definition normalize_text (text : string) : string :=
  if str_not text then EmptyString
  else re_sub (RPlus re_space) " " (str_strip (str_lower text)).

(* ------------------------------------------------------------------ *)
(** ** Floating-point numbers *)

Module Float.

Definition prec : Z := 53.
Definition emax : Z := 1024.

Definition float := spec_float.

(** [float(n)] for an integer [n], correctly rounded. *)
Definition of_Z (z : Z) : float := binary_normalize prec emax z 0 false.

(** The float nearest to [(-1)^neg * m * 10^e]. *)
Definition of_decimal (neg : bool) (m : N) (e : Z) : float :=
  match m with
  | N0 => S754_zero neg
  | Npos p =>
      match e with
      | Zneg k =>
          SFdiv prec emax (S754_finite neg p 0)
                (S754_finite false (Pos.pow 10 k) 0)
      | Z0 => binary_round prec emax neg p 0
      | Zpos k => binary_round prec emax neg (p * Pos.pow 10 k) 0
      end
  end.

Definition sub : float -> float -> float := SFsub prec emax.
Definition mul : float -> float -> float := SFmul prec emax.
Definition abs : float -> float := SFabs.
Definition leb : float -> float -> bool := SFleb.

(** The literals of the program. *)
Definition half : float := Eval vm_compute in of_decimal false 5 (-1).
Definition zero_point_seven : float := Eval vm_compute in of_decimal false 7 (-1).

End Float.

(** *** [float(s)] on a string

    As the interpreter does it: an underscore is accepted only between two
    digits and is dropped; then comes an optional sign and either [inf],
    [infinity] or [nan] in any case, or decimal digits with an optional
    point and an optional exponent.  The whole string must be used up. *)

Fixpoint strip_underscores (prev : ascii) (s : string) : option string :=
  match s with
  | EmptyString => if Ascii.eqb prev "_" then None else Some EmptyString
  | String c t =>
      if Ascii.eqb c "_" then
        if Char.isdigit prev then strip_underscores c t else None
      else if Ascii.eqb prev "_" && negb (Char.isdigit c) then None
      else option_map (String c) (strip_underscores c t)
  end.

Definition take_sign (s : string) : bool * string :=
  match s with
  | String "-" t => (true, t)
  | String "+" t => (false, t)
  | _ => (false, s)
  end.

(** The longest prefix of digits, and what follows it. *)
Fixpoint span_digits (s : string) : string * string :=
  match s with
  | String c t =>
      if Char.isdigit c
      then let (d, r) := span_digits t in (String c d, r)
      else (EmptyString, s)
  | EmptyString => (EmptyString, EmptyString)
  end.

Fixpoint digits_value_from (acc : N) (s : string) : N :=
  match s with
  | EmptyString => acc
  | String c t => digits_value_from (10 * acc + Z.to_N (Char.digit_value c))%N t
  end.

Definition digits_value (s : string) : N := digits_value_from 0%N s.

Definition parse_exponent (s : string) : option Z :=
  match s with
  | EmptyString => Some 0%Z
  | String c t =>
      if Ascii.eqb c "e" || Ascii.eqb c "E" then
        let (neg, t') := take_sign t in
        let (d, r) := span_digits t' in
        if str_not d || negb (str_not r) then None
        else Some (if neg then - Z.of_N (digits_value d)
                   else Z.of_N (digits_value d))%Z
      else None
  end.

Definition parse_number (s : string) : option (N * Z) :=
  let (ip, r1) := span_digits s in
  let (fp, r2) :=
    match r1 with
    | String "." t => span_digits t
    | _ => (EmptyString, r1)
    end in
  if str_not ip && str_not fp then None
  else
    match parse_exponent r2 with
    | Some e => Some (digits_value (ip ++ fp), (e - Z.of_nat (String.length fp))%Z)
    | None => None
    end.

Definition py_float (s : string) : option Float.float :=
  match strip_underscores "000" s with
  | None => None
  | Some s' =>
      let (neg, b) := take_sign s' in
      let w := str_lower b in
      if String.eqb w "inf" || String.eqb w "infinity"
      then Some (S754_infinity neg)
      else if String.eqb w "nan" then Some S754_nan
      else
        match parse_number b with
        | Some (m, e) => Some (Float.of_decimal neg m e)
        | None => None
        end
  end.

(* ------------------------------------------------------------------ *)
(** ** The extractors and the field matchers *)

(** The pattern spelling out the string [w]. *)
Fixpoint RStr (w : string) : regex :=
  match w with
  | EmptyString => REps
  | String c t => RSeq (RLit c) (RStr t)
  end.

(** A number as group 1, then [\s*%]. *)
Definition re_percent : regex :=
  RSeq (RGroup 1 re_number) (RSeq (RStar re_space) (RLit "%")).

(** A number as group 1, then [\s*] and the unit as group 2; the units
    are [ml|mL], [fl\s*oz|oz] and [l|L], in the order of the program. *)
Definition re_volume (unit : regex) : regex :=
  RSeq (RGroup 1 re_number) (RSeq (RStar re_space) (RGroup 2 unit)).

Definition volume_patterns : list regex :=
  [ re_volume (RAlt (RStr "ml") (RStr "mL"));
    re_volume (RAlt (RSeq (RStr "fl") (RSeq (RStar re_space) (RStr "oz")))
                    (RStr "oz"));
    re_volume (RAlt (RStr "l") (RStr "L")) ].

(** The class [[%\s]]. *)
Definition re_percent_or_space : regex :=
  RChar (fun c => Ascii.eqb c "%" || Char.isspace c).

(** [0 <= val <= 100] *)
Definition in_percent_range (val : Float.float) : bool :=
  Float.leb (Float.of_Z 0) val && Float.leb val (Float.of_Z 100).

Definition find_percentage (text : string) : list Float.float :=
  flat_map
    (fun m =>
       match py_float m with
       | Some val => if in_percent_range val then [val] else []
       | None => []
       end)
    (re_findall1 re_percent (str_lower text)).

Definition find_volume (text : string) : list string :=
  flat_map
    (fun pattern =>
       map (fun m => str_strip (fst m ++ " " ++ snd m))
           (re_findall2 pattern (str_lower text)))
    volume_patterns.

(** [abs(label_val - form_value) <= 0.5] *)
Definition abv_close (label_val form_value : Float.float) : bool :=
  Float.leb (Float.abs (Float.sub label_val form_value)) Float.half.

(** [found >= n * 0.7] for the integers [found] and [n]; both are list
    lengths, which a float holds exactly. *)
Definition enough_words (found n : nat) : bool :=
  Float.leb (Float.mul (Float.of_Z (Z.of_nat n)) Float.zero_point_seven)
            (Float.of_Z (Z.of_nat found)).

Definition count_found (words : list string) (label_lower : string) : nat :=
  List.length (List.filter (fun word => str_in word label_lower) words).

Section Matchers.

(** [str(x)] of a float, as the f-strings of the messages print it. *)
Variable float_str : Float.float -> string.

Definition check_match (label_text form_value field_name : string)
  : bool * string :=
  if str_not form_value then (false, field_name ++ " not provided in form")
  else
    let label_lower := normalize_text label_text in
    let form_lower := normalize_text form_value in
    if str_in form_lower label_lower
    then (true, field_name ++ " found on label")
    else
      let form_words := str_split form_lower in
      if (1 <? List.length form_words)
         && enough_words (count_found form_words label_lower)
                         (List.length form_words)
      then (true, field_name ++ " partially matched")
      else (false, field_name ++ " not found on label").

(** The first percentage of the label within the tolerance. *)
Definition first_close (form_value : Float.float) (l : list Float.float)
  : option Float.float :=
  List.find (fun label_val => abv_close label_val form_value) l.

Definition check_alcohol (label_text form_abv : string) : bool * string :=
  if str_not form_abv then (false, "Alcohol content not provided")
  else
    match py_float (re_sub re_percent_or_space "" form_abv) with
    | None => (false, "Invalid alcohol content: " ++ form_abv)
    | Some form_value =>
        match find_percentage label_text with
        | [] =>
            (false, "Alcohol content not found on label (expected "
                    ++ float_str form_value ++ "%)")
        | (first :: _) as label_percentages =>
            match first_close form_value label_percentages with
            | Some label_val =>
                (true, "Alcohol content matches: " ++ float_str label_val ++ "%")
            | None =>
                (false, "Alcohol content mismatch: found " ++ float_str first
                        ++ "%, expected " ++ float_str form_value ++ "%")
            end
        end
    end.

(** [form_lower in normalize_text(label_vol) or
     normalize_text(label_vol) in form_lower] *)
Definition volume_agrees (form_lower label_vol : string) : bool :=
  str_in form_lower (normalize_text label_vol)
  || str_in (normalize_text label_vol) form_lower.

Definition check_volume (label_text form_volume : string) : bool * string :=
  if str_not form_volume then (true, "Net contents not required")
  else
    match find_volume label_text with
    | [] =>
        (false, "Net contents not found on label (expected "
                ++ form_volume ++ ")")
    | (first :: _) as label_volumes =>
        let form_lower := normalize_text form_volume in
        match List.find (volume_agrees form_lower) label_volumes with
        | Some label_vol => (true, "Net contents matches: " ++ label_vol)
        | None =>
            (false, "Net contents mismatch: found " ++ first
                    ++ ", expected " ++ form_volume)
        end
    end.

Definition warning_phrases : list string :=
  ["pregnant"; "driving"; "operating machinery"; "health problems"].

Definition check_warning (label_text : string) : bool * string :=
  let text_lower := normalize_text label_text in
  if str_in "government warning" text_lower
  then (true, "Government warning found on label")
  else
    let found := List.filter (fun p => str_in p text_lower) warning_phrases in
    if 2 <=? List.length found
    then (true, "Government warning partially found")
    else (false, "Government warning not found on label").

End Matchers.

(* ------------------------------------------------------------------ *)
(** ** The request handler *)

(** An uploaded file: its name and its bytes. *)
Record upload : Type := { filename : string; content : string }.

Record request : Type :=
  { form : gmap string string;
    files : gmap string upload }.

(** One entry of [results['checks']]. *)
Record check_entry : Type :=
  { field : string; matched : bool; message : string }.

(** The [results] dictionary. *)
Record results : Type :=
  { overall_match : bool;
    extracted_text_preview : string;
    checks : list check_entry }.

(** What [jsonify] is given, and the status code sent with it. *)
Inductive body : Type :=
| Error (error : string)
| ErrorDetails (error details : string)
| Results (r : results).

Definition response : Type := body * nat.

(** A call into a library that either returns or raises; [Raised] carries
    [str(e)]. *)
Inductive outcome (A : Type) : Type :=
| Returned (a : A)
| Raised (e : string).
Arguments Returned {A} a.
Arguments Raised {A} e.

(** [form_data.get(key, '')] *)
Definition form_get (form_data : gmap string string) (key : string) : string :=
  default EmptyString (form_data !! key).

(** [results['checks'].append({...})] followed by
    [if not m: results['overall_match'] = False]. *)
Definition record_check (name : string) (r : bool * string) (res : results)
  : results :=
  {| overall_match := if fst r then overall_match res else false;
     extracted_text_preview := extracted_text_preview res;
     checks := checks res ++ [{| field := name; matched := fst r;
                                 message := snd r |}] |}.

Definition text_preview (extracted_text : string) : string :=
  if 200 <? String.length extracted_text
  then str_take 200 extracted_text ++ "..."
  else extracted_text.

Section Handler.

Variable float_str : Float.float -> string.

(** [Image.open(io.BytesIO(...))] and [pytesseract.image_to_string]. *)
Variable image : Type.
Variable Image_open : string -> outcome image.
Variable image_to_string : image -> outcome string.

(** The body of [verify_label] once the text has passed the quality
    gate: the [results] dictionary is built, then updated check by
    check. *)
Definition run_checks (extracted_text : string)
    (form_data : gmap string string) : results :=
  let results0 :=
    {| overall_match := true;
       extracted_text_preview := text_preview extracted_text;
       checks := [] |} in
  let results1 :=
    record_check "Brand Name"
      (check_match extracted_text (form_get form_data "brandName") "Brand Name")
      results0 in
  let results2 :=
    record_check "Product Class/Type"
      (check_match extracted_text (form_get form_data "productClass")
                   "Product Class/Type")
      results1 in
  let results3 :=
    record_check "Alcohol Content"
      (check_alcohol float_str extracted_text
                     (form_get form_data "alcoholContent"))
      results2 in
  let results4 :=
    if str_not (form_get form_data "netContents") then results3
    else
      record_check "Net Contents"
        (check_volume extracted_text (form_get form_data "netContents"))
        results3 in
  record_check "Government Warning" (check_warning extracted_text) results4.

(** The OCR quality gate:
    [not extracted_text or len(extracted_text.strip()) < 10]. *)
Definition unreadable (extracted_text : string) : bool :=
  str_not extracted_text || (String.length (str_strip extracted_text) <? 10).

Definition verify_label (req : request) : response :=
  let form_data := form req in
  match files req !! "image" with
  | None => (Error "No image file provided", 400)
  | Some image_file =>
      if String.eqb (filename image_file) ""
      then (Error "No image file selected", 400)
      else
        match Image_open (content image_file) with
        | Raised e => (ErrorDetails "An error occurred" e, 500)
        | Returned img =>
            match image_to_string img with
            | Raised e => (ErrorDetails "Failed to process image" e, 500)
            | Returned extracted_text =>
                if unreadable extracted_text
                then (Error "Could not read text from image. Please try a clearer image.", 400)
                else (Results (run_checks extracted_text form_data), 200)
            end
        end
  end.

End Handler.

(* ------------------------------------------------------------------ *)
(** ** Definitions used to state the properties *)

(** What [re.sub] with the pattern [\s+] and the replacement [" "] computes,
    as a recursion on the text: [in_run] tells that the previous
    character was whitespace. *)
Fixpoint squeeze (in_run : bool) (s : string) : string :=
  match s with
  | EmptyString => EmptyString
  | String c t =>
      if Char.isspace c
      then if in_run then squeeze true t else String " " (squeeze true t)
      else String c (squeeze false t)
  end.

Definition starts_space (s : string) : bool :=
  match s with
  | String c _ => Char.isspace c
  | EmptyString => false
  end.

Fixpoint ends_space (s : string) : bool :=
  match s with
  | EmptyString => false
  | String c EmptyString => Char.isspace c
  | String _ t => ends_space t
  end.

Fixpoint all_space (s : string) : bool :=
  match s with
  | EmptyString => true
  | String c t => Char.isspace c && all_space t
  end.

(** Every whitespace character is one ASCII space and the next character
    is not whitespace. *)
Fixpoint single_spaced (s : string) : bool :=
  match s with
  | EmptyString => true
  | String c t =>
      (if Char.isspace c then Ascii.eqb c " " && negb (starts_space t) else true)
      && single_spaced t
  end.

(** A string in normal form: lowercase, single internal spaces, no
    whitespace at either end. *)
Definition is_normalized (s : string) : Prop :=
  str_lower s = s /\ starts_space s = false /\ ends_space s = false
  /\ single_spaced s = true.

(** [s[n:]] *)
Fixpoint str_drop (n : nat) (s : string) : string :=
  match n, s with
  | S k, String _ t => str_drop k t
  | _, _ => s
  end.

(** The length of the longest prefix whose characters satisfy [p], and
    what follows that prefix. *)
Fixpoint span_len (p : ascii -> bool) (s : string) : nat :=
  match s with
  | String c t => if p c then S (span_len p t) else 0
  | EmptyString => 0
  end.

Fixpoint drop_span (p : ascii -> bool) (s : string) : string :=
  match s with
  | String c t => if p c then drop_span p t else s
  | EmptyString => EmptyString
  end.

(** The entry that a check with outcome [r] appends to the list of
    checks. *)
Definition entry (name : string) (r : bool * string) : check_entry :=
  {| field := name; matched := fst r; message := snd r |}.

(** A sample request: the form of a whiskey label and an upload, for an
    OCR engine that returns the bytes of the upload as text. *)
Definition sample_form : gmap string string :=
  <["brandName" := "Old Barrel"]>
    (<["productClass" := "Whiskey"]>
       (<["alcoholContent" := "40"]>
          (<["netContents" := "750 ml"]> ∅))).

Definition sample_request (form_data : gmap string string) (text : string)
  : request :=
  {| form := form_data;
     files := {["image" := {| filename := "label.png"; content := text |}]} |}.

Definition sample_text : string :=
  "Old Barrel Whiskey 40% ALC/VOL 750 mL GOVERNMENT WARNING: pregnant driving".

(** The words of a pattern: [matches r w g g'] says that [r] can match
    exactly the string [w], taking the captured groups from [g] to [g']. *)
Inductive matches : regex -> string -> groups -> groups -> Prop :=
| M_eps g : matches REps "" g g
| M_char p c g : p c = true -> matches (RChar p) (String c "") g g
| M_seq a b w1 w2 g g1 g2 :
    matches a w1 g g1 -> matches b w2 g1 g2 ->
    matches (RSeq a b) (w1 ++ w2) g g2
| M_alt_l a b w g g' : matches a w g g' -> matches (RAlt a b) w g g'
| M_alt_r a b w g g' : matches b w g g' -> matches (RAlt a b) w g g'
| M_star_nil a g : matches (RStar a) "" g g
| M_star_cons a w1 w2 g g1 g2 :
    matches a w1 g g1 -> matches (RStar a) w2 g1 g2 ->
    matches (RStar a) (w1 ++ w2) g g2
| M_group i a w g g' :
    matches a w g g' -> matches (RGroup i a) w g ((i, w) :: g').

(** The percentages of [find_percentage], each with the position in the
    lowercased text at which its pattern matched. *)
Definition percent_hits (text : string) : list (nat * Float.float) :=
  flat_map
    (fun m =>
       match py_float (group 1 (snd m)) with
       | Some val => if in_percent_range val then [(fst m, val)] else []
       | None => []
       end)
    (re_finditer re_percent (str_lower text)).

(** Every character of [s] satisfies [p]. *)
Fixpoint str_forall (p : ascii -> bool) (s : string) : bool :=
  match s with
  | EmptyString => true
  | String c t => p c && str_forall p t
  end.

(** A pattern without capturing groups. *)
Fixpoint group_free (r : regex) : bool :=
  match r with
  | REps | RChar _ => true
  | RSeq a b | RAlt a b => group_free a && group_free b
  | RStar a => group_free a
  | RGroup _ _ => false
  end.

(** The numerals of the patterns: digits, then possibly a point and more
    digits. *)
Definition is_numeral (w : string) : Prop :=
  exists ip dot fp,
    w = ip ++ dot ++ fp /\ ip <> ""
    /\ str_forall Char.isdigit ip = true /\ (dot = "" \/ dot = ".")
    /\ str_forall Char.isdigit fp = true.

(** The units of a volume candidate. *)
Definition is_volume_unit (u : string) : Prop :=
  u = "ml" \/ u = "oz" \/ u = "l"
  \/ exists ws, all_space ws = true /\ u = "fl" ++ ws ++ "oz".

(** The characters of a numeral. *)
Definition numeral_char (c : ascii) : bool :=
  Char.isdigit c || Ascii.eqb c ".".

(* ================================================================== *)
(** * Properties *)

#[local] Arguments String.append !s1 s2 : simpl nomatch.

(* ------------------------------------------------------------------ *)
(** ** Characters *)

Ltac all_chars c := destruct c as [[] [] [] [] [] [] [] []]; reflexivity.

Lemma lower_lower c : Char.lower (Char.lower c) = Char.lower c.
Proof. all_chars c. Qed.

Lemma isspace_lower c : Char.isspace (Char.lower c) = Char.isspace c.
Proof. all_chars c. Qed.

(* ------------------------------------------------------------------ *)
(** ** Strings *)

Lemma append_assoc s1 s2 s3 : (s1 ++ s2) ++ s3 = s1 ++ (s2 ++ s3).
Proof. induction s1 as [|c s1 IH]; simpl; [reflexivity | now rewrite IH]. Qed.

Lemma length_append s1 s2 :
  String.length (s1 ++ s2) = String.length s1 + String.length s2.
Proof. induction s1 as [|c s1 IH]; simpl; [reflexivity | now rewrite IH]. Qed.

Lemma prefix_nil s : String.prefix "" s = true.
Proof. destruct s; reflexivity. Qed.

Lemma prefix_append a b : String.prefix a (a ++ b) = true.
Proof.
  induction a as [|c a IH]; simpl; [apply prefix_nil |].
  destruct (ascii_dec c c); [exact IH | congruence].
Qed.

Lemma prefix_inv a b :
  String.prefix a b = true -> exists post, b = a ++ post.
Proof.
  revert b. induction a as [|c a IH]; intros b H.
  - exists b. reflexivity.
  - destruct b as [|d b]; simpl in H; [discriminate |].
    destruct (ascii_dec c d) as [->|]; [| discriminate].
    destruct (IH _ H) as [post ->]. exists post. reflexivity.
Qed.

Lemma str_in_nil s : str_in "" s = true.
Proof. destruct s; reflexivity. Qed.

Lemma str_in_prefix a b : String.prefix a b = true -> str_in a b = true.
Proof. intros H. destruct b; cbn [str_in]; rewrite H; reflexivity. Qed.

Lemma str_in_append pre a post : str_in a (pre ++ a ++ post) = true.
Proof.
  induction pre as [|c pre IH]; simpl.
  - apply str_in_prefix, prefix_append.
  - rewrite IH. apply orb_true_r.
Qed.

Lemma str_in_inv a b :
  str_in a b = true -> exists pre post, b = pre ++ a ++ post.
Proof.
  induction b as [|c b IH]; cbn [str_in]; intros H.
  - rewrite orb_false_r in H. apply prefix_inv in H as [post H].
    exists "", post. exact H.
  - apply orb_true_iff in H as [H | H].
    + apply prefix_inv in H as [post H]. exists "", post. exact H.
    + destruct (IH H) as (pre & post & ->). exists (String c pre), post.
      reflexivity.
Qed.

Lemma str_in_iff a b :
  str_in a b = true <-> exists pre post, b = pre ++ a ++ post.
Proof.
  split; [apply str_in_inv | intros (pre & post & ->); apply str_in_append].
Qed.

Lemma str_not_true s : str_not s = true <-> s = "".
Proof. destruct s; simpl; split; congruence. Qed.

Lemma str_not_false s : str_not s = false <-> s <> "".
Proof. destruct s; simpl; split; congruence. Qed.

(** *** Lowercasing *)

Lemma str_lower_idem s : str_lower (str_lower s) = str_lower s.
Proof.
  induction s as [|c s IH]; simpl; [reflexivity |].
  now rewrite lower_lower, IH.
Qed.

Lemma str_lower_append a b : str_lower (a ++ b) = str_lower a ++ str_lower b.
Proof. induction a as [|c a IH]; simpl; [reflexivity | now rewrite IH]. Qed.

Lemma starts_space_lower s : starts_space (str_lower s) = starts_space s.
Proof. destruct s; simpl; [reflexivity | apply isspace_lower]. Qed.

Lemma all_space_lower s : all_space (str_lower s) = all_space s.
Proof.
  induction s as [|c s IH]; simpl; [reflexivity |].
  now rewrite isspace_lower, IH.
Qed.

Lemma str_lstrip_lower s : str_lstrip (str_lower s) = str_lower (str_lstrip s).
Proof.
  induction s as [|c s IH]; simpl; [reflexivity |].
  rewrite isspace_lower. destruct (Char.isspace c); [exact IH | reflexivity].
Qed.

Lemma str_rstrip_lower s : str_rstrip (str_lower s) = str_lower (str_rstrip s).
Proof.
  induction s as [|c s IH]; simpl; [reflexivity |].
  rewrite IH, isspace_lower.
  destruct (str_rstrip s); simpl; [destruct (Char.isspace c) |]; reflexivity.
Qed.

Lemma str_strip_lower s : str_strip (str_lower s) = str_lower (str_strip s).
Proof. unfold str_strip. now rewrite str_lstrip_lower, str_rstrip_lower. Qed.

Lemma squeeze_lower b s : squeeze b (str_lower s) = str_lower (squeeze b s).
Proof.
  revert b. induction s as [|c s IH]; intros b; simpl; [reflexivity |].
  rewrite isspace_lower.
  destruct (Char.isspace c); [destruct b |]; simpl; now rewrite IH.
Qed.

(** *** Stripping *)

Lemma starts_space_lstrip s : starts_space (str_lstrip s) = false.
Proof.
  induction s as [|c s IH]; simpl; [reflexivity |].
  destruct (Char.isspace c) eqn:E; [exact IH | simpl; exact E].
Qed.

Lemma str_lstrip_id s : starts_space s = false -> str_lstrip s = s.
Proof. destruct s as [|c s]; simpl; [reflexivity | now intros ->]. Qed.

Lemma str_lstrip_all_space s : all_space s = true -> str_lstrip s = "".
Proof.
  induction s as [|c s IH]; simpl; [reflexivity |].
  intros H. apply andb_true_iff in H as [-> H]. now apply IH.
Qed.

Lemma str_rstrip_cons c t :
  str_rstrip (String c t) =
  if str_not (str_rstrip t)
  then (if Char.isspace c then "" else String c "")
  else String c (str_rstrip t).
Proof. simpl. destruct (str_rstrip t); reflexivity. Qed.

Lemma ends_space_cons c t :
  ends_space (String c t) = if str_not t then Char.isspace c else ends_space t.
Proof. destruct t; reflexivity. Qed.

Lemma ends_space_rstrip s : ends_space (str_rstrip s) = false.
Proof.
  induction s as [|c s IH]; [reflexivity |].
  rewrite str_rstrip_cons.
  destruct (str_not (str_rstrip s)) eqn:E.
  - destruct (Char.isspace c) eqn:Ec; simpl; [reflexivity | exact Ec].
  - rewrite ends_space_cons, E. exact IH.
Qed.

Lemma str_rstrip_id s : ends_space s = false -> str_rstrip s = s.
Proof.
  induction s as [|c s IH]; [reflexivity |].
  rewrite ends_space_cons, str_rstrip_cons.
  destruct s as [|d s].
  - simpl. now intros ->.
  - cbn [str_not]. intros H. rewrite (IH H). reflexivity.
Qed.

Lemma starts_space_rstrip s :
  starts_space s = false -> starts_space (str_rstrip s) = false.
Proof.
  destruct s as [|c s]; [reflexivity |].
  rewrite str_rstrip_cons. cbn [starts_space]. intros E.
  destruct (str_not (str_rstrip s)); rewrite ?E; simpl; rewrite ?E; reflexivity.
Qed.

Lemma starts_space_strip s : starts_space (str_strip s) = false.
Proof. apply starts_space_rstrip, starts_space_lstrip. Qed.

Lemma ends_space_strip s : ends_space (str_strip s) = false.
Proof. apply ends_space_rstrip. Qed.

Lemma str_strip_id s :
  starts_space s = false -> ends_space s = false -> str_strip s = s.
Proof.
  intros H1 H2. unfold str_strip. rewrite (str_lstrip_id _ H1).
  now apply str_rstrip_id.
Qed.

Lemma str_strip_all_space s : all_space s = true -> str_strip s = "".
Proof. intros H. unfold str_strip. now rewrite str_lstrip_all_space. Qed.

(** *** Squeezing runs of whitespace *)

Lemma starts_space_squeeze_true s : starts_space (squeeze true s) = false.
Proof.
  induction s as [|c s IH]; simpl; [reflexivity |].
  destruct (Char.isspace c) eqn:E; [exact IH | simpl; exact E].
Qed.

Lemma starts_space_squeeze b s :
  starts_space s = false -> starts_space (squeeze b s) = false.
Proof. destruct s as [|c s]; simpl; [reflexivity |]. intros E. rewrite E. simpl. exact E. Qed.

Lemma all_space_ends s : all_space s = true -> s <> "" -> ends_space s = true.
Proof.
  induction s as [|c s IH]; [congruence |].
  simpl all_space. intros H _. apply andb_true_iff in H as [Hc Hs].
  rewrite ends_space_cons. destruct s as [|d s]; [exact Hc |].
  cbn [str_not]. apply IH; [exact Hs | discriminate].
Qed.

Lemma squeeze_nil b s :
  squeeze b s = "" -> s = "" \/ (b = true /\ all_space s = true).
Proof.
  revert b. induction s as [|c s IH]; intros b; simpl; [now left |].
  destruct (Char.isspace c); [| discriminate].
  destruct b; [| discriminate].
  intros H. right. split; [reflexivity |].
  destruct (IH _ H) as [-> | [_ ->]]; reflexivity.
Qed.

Lemma ends_space_squeeze b s :
  ends_space s = false -> ends_space (squeeze b s) = false.
Proof.
  revert b. induction s as [|c s IH]; intros b; [reflexivity |].
  rewrite ends_space_cons. destruct (str_not s) eqn:Es.
  - apply str_not_true in Es. subst s. simpl. intros E. rewrite E. simpl.
    exact E.
  - intros H.
    assert (Hne : forall b', squeeze b' s <> "").
    { intros b' Hb. apply str_not_false in Es.
      destruct (squeeze_nil _ _ Hb) as [-> | [_ Ha]]; [congruence |].
      rewrite (all_space_ends _ Ha Es) in H. discriminate. }
    simpl. destruct (Char.isspace c); [destruct b |];
      rewrite ?ends_space_cons;
      try (destruct (str_not (squeeze _ s)) eqn:E;
           [apply str_not_true in E; now apply Hne in E |]);
      now apply IH.
Qed.

Lemma single_spaced_squeeze b s : single_spaced (squeeze b s) = true.
Proof.
  revert b. induction s as [|c s IH]; intros b; simpl; [reflexivity |].
  destruct (Char.isspace c) eqn:E; [destruct b |]; simpl;
    rewrite ?E, ?IH, ?starts_space_squeeze_true; reflexivity.
Qed.

Lemma squeeze_id b s :
  single_spaced s = true -> (b = true -> starts_space s = false) ->
  squeeze b s = s.
Proof.
  revert b. induction s as [|c s IH]; intros b; simpl; [reflexivity |].
  intros H Hb. apply andb_true_iff in H as [Hc Hs].
  destruct (Char.isspace c) eqn:E.
  - apply andb_true_iff in Hc as [Hc Hn]. apply Ascii.eqb_eq in Hc. subst c.
    apply negb_true_iff in Hn.
    destruct b; [now specialize (Hb eq_refl) |].
    now rewrite IH.
  - now rewrite IH.
Qed.

(* ------------------------------------------------------------------ *)
(** ** The matcher on the patterns of the program *)

Lemma rmatch_seq {R} a b s g (k : string -> groups -> option R) :
  rmatch (RSeq a b) s g k = rmatch a s g (fun s' g' => rmatch b s' g' k).
Proof. reflexivity. Qed.

Lemma rmatch_char {R} p s g (k : string -> groups -> option R) :
  rmatch (RChar p) s g k =
  match s with
  | String c t => if p c then k t g else None
  | EmptyString => None
  end.
Proof. reflexivity. Qed.

Lemma rmatch_alt {R} a b s g (k : string -> groups -> option R) :
  rmatch (RAlt a b) s g k =
  match rmatch a s g k with
  | Some x => Some x
  | None => rmatch b s g k
  end.
Proof. reflexivity. Qed.

Lemma rmatch_group {R} i a s g (k : string -> groups -> option R) :
  rmatch (RGroup i a) s g k =
  rmatch a s g
    (fun s' g' =>
       k s' ((i, str_take (String.length s - String.length s') s) :: g')).
Proof. reflexivity. Qed.

(** A starred character class either takes the next character and goes
    on, giving it back if the rest fails, or stops. *)
Lemma rmatch_star_char {R} p s g (k : string -> groups -> option R) :
  rmatch (RStar (RChar p)) s g k =
  match s with
  | String c t =>
      if p c then
        match rmatch (RStar (RChar p)) t g k with
        | Some x => Some x
        | None => k s g
        end
      else k s g
  | EmptyString => k s g
  end.
Proof.
  destruct s as [|c t]; [reflexivity |].
  cbn [rmatch String.length].
  destruct (p c); [| reflexivity].
  replace (String.length t <? S (String.length t)) with true
    by (symmetry; apply Nat.ltb_lt; lia).
  reflexivity.
Qed.

Lemma length_drop_span p s :
  String.length (drop_span p s) + span_len p s = String.length s.
Proof.
  induction s as [|c s IH]; simpl; [reflexivity |].
  destruct (p c); simpl; lia.
Qed.

(** When what follows cannot fail, the star takes the whole run. *)
Lemma rmatch_star_char_total {R} p s g (k : string -> groups -> option R) :
  (forall s' g', k s' g' <> None) ->
  rmatch (RStar (RChar p)) s g k = k (drop_span p s) g.
Proof.
  intros Hk. induction s as [|c s IH]; rewrite rmatch_star_char; [reflexivity |].
  cbn [drop_span]. destruct (p c); [| reflexivity].
  rewrite IH. destruct (k (drop_span p s) g) eqn:E; [reflexivity |].
  now apply Hk in E.
Qed.

Lemma re_match_plus_char p s :
  re_match (RPlus (RChar p)) s =
  match s with
  | String c t => if p c then Some (S (span_len p t), []) else None
  | EmptyString => None
  end.
Proof.
  unfold re_match, RPlus. rewrite rmatch_seq, rmatch_char.
  destruct s as [|c t]; [reflexivity |].
  destruct (p c); [| reflexivity].
  rewrite rmatch_star_char_total by discriminate.
  f_equal. f_equal. pose proof (length_drop_span p t). simpl. lia.
Qed.

Lemma re_sub_plus_space s :
  re_sub_from (RPlus re_space) " " 0 s = squeeze false s
  /\ re_sub_from (RPlus re_space) " " (span_len Char.isspace s) s
     = squeeze true s.
Proof.
  unfold re_space. induction s as [|c s [IH0 IH1]]; [split; reflexivity |].
  cbn [re_sub_from span_len squeeze]. rewrite re_match_plus_char.
  destruct (Char.isspace c); rewrite ?IH0, ?IH1; split; reflexivity.
Qed.

Lemma re_match_char p s :
  re_match (RChar p) s =
  match s with
  | String c t => if p c then Some (1, []) else None
  | EmptyString => None
  end.
Proof.
  unfold re_match. rewrite rmatch_char. destruct s as [|c t]; [reflexivity |].
  destruct (p c); [| reflexivity]. do 2 f_equal. simpl. lia.
Qed.

(** Substituting the empty string for the class [[%\s]] deletes the
    percent signs and the whitespace. *)
Lemma re_sub_percent_or_space s :
  re_sub re_percent_or_space "" s =
  match s with
  | String c t =>
      if Ascii.eqb c "%" || Char.isspace c
      then re_sub re_percent_or_space "" t
      else String c (re_sub re_percent_or_space "" t)
  | EmptyString => EmptyString
  end.
Proof.
  destruct s as [|c t]; [reflexivity |].
  unfold re_sub, re_percent_or_space. cbn [re_sub_from].
  rewrite re_match_char. destruct (Ascii.eqb c "%" || Char.isspace c); reflexivity.
Qed.

(** [normalize_text] without the regular expression. *)
Lemma normalize_text_squeeze text :
  normalize_text text = squeeze false (str_strip (str_lower text)).
Proof.
  unfold normalize_text, re_sub. destruct text; [reflexivity |].
  cbn [str_not]. apply re_sub_plus_space.
Qed.

Lemma normalize_text_normalized text : is_normalized (normalize_text text).
Proof.
  rewrite normalize_text_squeeze. repeat split.
  - now rewrite <- squeeze_lower, <- str_strip_lower, str_lower_idem.
  - apply starts_space_squeeze, starts_space_strip.
  - apply ends_space_squeeze, ends_space_strip.
  - apply single_spaced_squeeze.
Qed.

Lemma normalize_text_id s : is_normalized s -> normalize_text s = s.
Proof.
  intros (Hl & Hs & He & Hq). rewrite normalize_text_squeeze, Hl.
  rewrite (str_strip_id _ Hs He). now apply squeeze_id.
Qed.

Lemma normalize_text_all_space s : all_space s = true -> normalize_text s = "".
Proof.
  intros H. rewrite normalize_text_squeeze, str_strip_all_space; [reflexivity |].
  now rewrite all_space_lower.
Qed.

(** C8. Normalisation is idempotent: normalising twice gives what
    normalising once gives, and a string that is already in normal form
    (lowercase, single internal spaces, no whitespace at either end) is
    returned unchanged. *)
Theorem normalize_text_idempotent :
  (forall x, normalize_text (normalize_text x) = normalize_text x)
  /\ (forall s, is_normalized s -> normalize_text s = s).
Proof.
  split.
  - intros x. apply normalize_text_id, normalize_text_normalized.
  - apply normalize_text_id.
Qed.

Lemma normalize_text_idempotent_witness :
  is_normalized "old barrel reserve"
  /\ normalize_text "old barrel reserve" = "old barrel reserve".
Proof.
  assert (H : is_normalized "old barrel reserve")
    by (repeat split; reflexivity).
  split; [exact H |].
  exact (proj2 normalize_text_idempotent "old barrel reserve" H).
Defined.

(* ------------------------------------------------------------------ *)
(** ** Tokens *)

Lemma str_split_cons c t :
  str_split (String c t) =
  if Char.isspace c then str_split t
  else if str_not t || starts_space t then String c "" :: str_split t
  else match str_split t with
       | w :: ws => String c w :: ws
       | [] => [String c ""]
       end.
Proof.
  cbn [str_split]. destruct (Char.isspace c); [reflexivity |].
  destruct t as [|d t]; [reflexivity |].
  cbn [str_not starts_space orb]. destruct (Char.isspace d); reflexivity.
Qed.

Lemma str_not_lower s : str_not (str_lower s) = str_not s.
Proof. destruct s; reflexivity. Qed.

Lemma str_split_lower s : str_split (str_lower s) = map str_lower (str_split s).
Proof.
  induction s as [|c s IH]; [reflexivity |].
  cbn [str_lower]. rewrite !str_split_cons, isspace_lower.
  rewrite str_not_lower, starts_space_lower, IH.
  destruct (Char.isspace c); [reflexivity |].
  destruct (str_not s || starts_space s); [reflexivity |].
  destruct (str_split s); reflexivity.
Qed.

Lemma str_split_lstrip s : str_split (str_lstrip s) = str_split s.
Proof.
  induction s as [|c s IH]; [reflexivity |].
  cbn [str_lstrip]. destruct (Char.isspace c) eqn:E; [| reflexivity].
  now rewrite str_split_cons, E.
Qed.

Lemma str_split_all_space s : all_space s = true -> str_split s = [].
Proof.
  induction s as [|c s IH]; [reflexivity |].
  cbn [all_space]. intros H. apply andb_true_iff in H as [Hc Hs].
  now rewrite str_split_cons, Hc, IH.
Qed.

Lemma str_rstrip_nil s : str_rstrip s = "" -> all_space s = true.
Proof.
  induction s as [|c s IH]; [reflexivity |].
  rewrite str_rstrip_cons. cbn [all_space].
  destruct (str_not (str_rstrip s)) eqn:E; [| discriminate].
  apply str_not_true in E.
  destruct (Char.isspace c); [| discriminate]. intros _. now rewrite IH.
Qed.

Lemma all_space_starts s :
  all_space s = true -> (str_not s || starts_space s) = true.
Proof.
  destruct s as [|c s]; [reflexivity |]. cbn [all_space str_not starts_space orb].
  intros H. now apply andb_true_iff in H as [-> _].
Qed.

Lemma starts_space_rstrip_ne s :
  str_rstrip s <> "" ->
  (str_not (str_rstrip s) || starts_space (str_rstrip s))
  = (str_not s || starts_space s).
Proof.
  destruct s as [|c s]; [reflexivity |].
  rewrite str_rstrip_cons.
  destruct (str_not (str_rstrip s)); [destruct (Char.isspace c) eqn:E |];
    intros H; try congruence; cbn; rewrite ?E; reflexivity.
Qed.

Lemma str_split_rstrip s : str_split (str_rstrip s) = str_split s.
Proof.
  induction s as [|c s IH]; [reflexivity |].
  rewrite str_rstrip_cons. destruct (str_not (str_rstrip s)) eqn:E.
  - apply str_not_true in E. pose proof (str_rstrip_nil _ E) as Ha.
    rewrite str_split_cons, (str_split_all_space _ Ha), (all_space_starts _ Ha).
    destruct (Char.isspace c) eqn:Ec; [reflexivity |].
    now rewrite str_split_cons, Ec.
  - apply str_not_false in E.
    rewrite !str_split_cons, (starts_space_rstrip_ne _ E), IH. reflexivity.
Qed.

Lemma str_not_squeeze_false s : str_not (squeeze false s) = str_not s.
Proof. destruct s as [|c s]; [reflexivity |]. simpl. destruct (Char.isspace c); reflexivity. Qed.

Lemma starts_space_squeeze_false s :
  starts_space (squeeze false s) = starts_space s.
Proof.
  destruct s as [|c s]; [reflexivity |]. simpl.
  destruct (Char.isspace c) eqn:E; simpl; [reflexivity | exact E].
Qed.

Lemma str_split_squeeze b s : str_split (squeeze b s) = str_split s.
Proof.
  revert b. induction s as [|c s IH]; intros b; [reflexivity |].
  cbn [squeeze]. rewrite (str_split_cons c s).
  destruct (Char.isspace c) eqn:E.
  - destruct b; [apply IH |]. rewrite str_split_cons. apply IH.
  - rewrite str_split_cons, E, str_not_squeeze_false,
      starts_space_squeeze_false, IH. reflexivity.
Qed.

(** The tokens of the normalised value are the tokens of the value, in
    lowercase. *)
Lemma str_split_normalize_text s :
  str_split (normalize_text s) = map str_lower (str_split s).
Proof.
  rewrite normalize_text_squeeze, str_split_squeeze. unfold str_strip.
  now rewrite str_split_rstrip, str_split_lstrip, str_split_lower.
Qed.

(* ------------------------------------------------------------------ *)
(** ** The text-field matcher *)

(** On short token lists the floating-point test [found >= n * 0.7] is
    the exact comparison of [10 * found] with [7 * n]. *)
Lemma enough_words_exact n found :
  n <= 100 -> found <= n ->
  enough_words found n = (7 * n <=? 10 * found).
Proof.
  intros Hn Hf.
  assert (H : forallb (fun n => forallb (fun f =>
                Bool.eqb (enough_words f n) (7 * n <=? 10 * f))
                (seq 0 (S n))) (seq 0 101) = true)
    by (vm_compute; reflexivity).
  rewrite forallb_forall in H.
  specialize (H n ltac:(apply in_seq; lia)).
  rewrite forallb_forall in H.
  specialize (H found ltac:(apply in_seq; lia)).
  now apply Bool.eqb_prop in H.
Qed.

(** C10. A value that is not empty but holds only whitespace is not
    treated as missing: it normalises to the empty string, which occurs
    in every label, so the matcher answers "found on label". *)
Theorem check_match_whitespace_only label_text form_value field_name :
  form_value <> "" -> all_space form_value = true ->
  normalize_text form_value = ""
  /\ check_match label_text form_value field_name
     = (true, field_name ++ " found on label").
Proof.
  intros Hne Hsp. pose proof (normalize_text_all_space _ Hsp) as Hn.
  split; [exact Hn |].
  unfold check_match. apply str_not_false in Hne. rewrite Hne, Hn, str_in_nil.
  reflexivity.
Qed.

Lemma check_match_whitespace_only_witness :
  check_match "Old Barrel Whiskey" (String "009" "  ") "Brand Name"
  = (true, "Brand Name found on label").
Proof.
  apply (check_match_whitespace_only "Old Barrel Whiskey" (String "009" "  ")
           "Brand Name"); [discriminate | reflexivity].
Defined.

(** C3. When the expected value has more than one token and does not
    occur in the label as a whole, the matcher answers "partially
    matched" exactly when the number of its tokens that occur in the
    normalised label passes the test [found >= tokenCount * 0.7], and
    "not found on label" otherwise; two tokens out of three do not pass,
    three out of four do. *)
Theorem check_match_partial label_text form_value field_name :
  1 < List.length (str_split form_value) ->
  str_in (normalize_text form_value) (normalize_text label_text) = false ->
  let form_words := str_split (normalize_text form_value) in
  let found :=
    List.length
      (List.filter (fun word => str_in word (normalize_text label_text))
                   form_words) in
  form_words = map str_lower (str_split form_value)
  /\ (check_match label_text form_value field_name
      = (true, field_name ++ " partially matched")
      <-> enough_words found (List.length form_words) = true)
  /\ (check_match label_text form_value field_name
      = (false, field_name ++ " not found on label")
      <-> enough_words found (List.length form_words) = false)
  /\ (List.length form_words <= 100 ->
      (check_match label_text form_value field_name
       = (true, field_name ++ " partially matched")
       <-> 7 * List.length form_words <= 10 * found))
  /\ enough_words 2 3 = false
  /\ enough_words 3 4 = true.
Proof.
  intros Hlen Hin form_words found.
  assert (Hw : form_words = map str_lower (str_split form_value))
    by apply str_split_normalize_text.
  assert (Hl : (1 <? List.length form_words) = true).
  { apply Nat.ltb_lt. rewrite Hw, length_map. exact Hlen. }
  assert (Hne : str_not form_value = false).
  { destruct form_value; [simpl in Hlen; lia | reflexivity]. }
  assert (Hc : check_match label_text form_value field_name
               = if enough_words found (List.length form_words)
                 then (true, field_name ++ " partially matched")
                 else (false, field_name ++ " not found on label")).
  { unfold check_match. rewrite Hne, Hin. unfold count_found.
    fold form_words. fold found. rewrite Hl. reflexivity. }
  assert (Hfound : found <= List.length form_words).
  { unfold found. apply filter_length_le. }
  split; [exact Hw |]. rewrite Hc.
  split; [| split; [| split; [| split; reflexivity]]].
  - destruct (enough_words found (List.length form_words));
      split; intros; try reflexivity; discriminate.
  - destruct (enough_words found (List.length form_words));
      split; intros; try reflexivity; discriminate.
  - intros Hsmall. rewrite (enough_words_exact _ _ Hsmall Hfound).
    destruct (7 * List.length form_words <=? 10 * found) eqn:E;
      [apply Nat.leb_le in E | apply Nat.leb_gt in E];
      split; intros; try reflexivity; try discriminate; lia.
Qed.

Lemma check_match_partial_witness :
  check_match "old barrel" "Old Barrel Reserve" "Brand Name"
  = (false, "Brand Name not found on label")
  /\ check_match "OLD BARREL 12 yr WHISKEY" "Old Barrel Reserve Whiskey"
                 "Brand Name"
     = (true, "Brand Name partially matched").
Proof.
  split.
  - destruct (check_match_partial "old barrel" "Old Barrel Reserve"
                "Brand Name") as (_ & _ & H & _);
      [vm_compute; lia | vm_compute; reflexivity |].
    apply H. vm_compute. reflexivity.
  - destruct (check_match_partial "OLD BARREL 12 yr WHISKEY"
                "Old Barrel Reserve Whiskey" "Brand Name")
      as (_ & _ & _ & H & _);
      [vm_compute; lia | vm_compute; reflexivity |].
    apply H; vm_compute; lia.
Defined.

(* ------------------------------------------------------------------ *)
(** ** Occurrences survive normalisation *)

Lemma str_lstrip_append a x :
  x <> "" -> starts_space x = false -> str_lstrip (a ++ x) = str_lstrip a ++ x.
Proof.
  intros Hne Hx. induction a as [|c a IH]; simpl.
  - now apply str_lstrip_id.
  - destruct (Char.isspace c); [exact IH | reflexivity].
Qed.

Lemma append_eq_nil a b : a ++ b = "" -> a = "" /\ b = "".
Proof. destruct a; simpl; [now split | discriminate]. Qed.

Lemma str_rstrip_append x b :
  x <> "" -> ends_space x = false -> str_rstrip (x ++ b) = x ++ str_rstrip b.
Proof.
  induction x as [|c x IH]; [congruence |]. intros _.
  rewrite ends_space_cons. cbn [String.append]. rewrite str_rstrip_cons.
  destruct x as [|d x].
  - cbn [str_not String.append]. intros ->.
    destruct (str_rstrip b); reflexivity.
  - cbn [str_not]. intros H. rewrite IH by (congruence || exact H).
    reflexivity.
Qed.

Lemma ends_space_append a x : x <> "" -> ends_space (a ++ x) = ends_space x.
Proof.
  intros Hne. induction a as [|c a IH]; [reflexivity |].
  cbn [String.append]. rewrite ends_space_cons.
  destruct (str_not (a ++ x)) eqn:E; [| exact IH].
  apply str_not_true, append_eq_nil in E. now destruct E.
Qed.

Lemma squeeze_append b a x :
  squeeze b (a ++ x)
  = squeeze b a ++ squeeze (if str_not a then b else ends_space a) x.
Proof.
  revert b. induction a as [|c a IH]; intros b; [reflexivity |].
  cbn [String.append squeeze str_not]. rewrite ends_space_cons.
  destruct (Char.isspace c); [destruct b |]; rewrite IH;
    destruct (str_not a); reflexivity.
Qed.

(** A non-empty string whose lowercase form is in normal form is still
    there, in lowercase, after the text around it has been normalised. *)
Lemma str_in_normalize_text pre w post :
  w <> "" -> is_normalized (str_lower w) ->
  str_in (str_lower w) (normalize_text (pre ++ w ++ post)) = true.
Proof.
  intros Hne (_ & Hs & He & Hq).
  assert (Hne' : str_lower w <> "") by (destruct w; [congruence | discriminate]).
  set (W := str_lower w) in *.
  rewrite normalize_text_squeeze, !str_lower_append. fold W.
  unfold str_strip.
  rewrite str_lstrip_append.
  2: { intros E. apply append_eq_nil in E. now destruct E. }
  2: { destruct W; [congruence | exact Hs]. }
  rewrite <- append_assoc, str_rstrip_append.
  2: { intros E. apply append_eq_nil in E. now destruct E. }
  2: { now rewrite ends_space_append. }
  rewrite !squeeze_append.
  rewrite (squeeze_id _ W Hq (fun _ => Hs)).
  rewrite append_assoc. apply str_in_append.
Qed.

(* ------------------------------------------------------------------ *)
(** ** The government-warning check *)

(** C4. The check succeeds at once when the normalised text contains
    "government warning", so in whatever case the label prints it;
    otherwise it answers "partially found" exactly when at least two of
    the four phrases occur in the normalised text, and fails otherwise,
    as it does on a text with "pregnant" as its only phrase. *)
Theorem check_warning_spec label_text :
  let text_lower := normalize_text label_text in
  let found := List.filter (fun p => str_in p text_lower) warning_phrases in
  (str_in "government warning" text_lower = true ->
   check_warning label_text = (true, "Government warning found on label"))
  /\ (forall pre w post,
        label_text = pre ++ w ++ post ->
        str_lower w = "government warning" ->
        check_warning label_text = (true, "Government warning found on label"))
  /\ (str_in "government warning" text_lower = false ->
      (check_warning label_text = (true, "Government warning partially found")
       <-> 2 <= List.length found)
      /\ (check_warning label_text
          = (false, "Government warning not found on label")
          <-> List.length found < 2))
  /\ (str_in "government warning" text_lower = false ->
      str_in "driving" text_lower = false ->
      str_in "operating machinery" text_lower = false ->
      str_in "health problems" text_lower = false ->
      check_warning label_text = (false, "Government warning not found on label"))
  /\ check_warning "pregnant" = (false, "Government warning not found on label").
Proof.
  intros text_lower found.
  assert (Hexact : str_in "government warning" text_lower = true ->
            check_warning label_text = (true, "Government warning found on label")).
  { intros H. unfold check_warning. fold text_lower. now rewrite H. }
  assert (Hrest : str_in "government warning" text_lower = false ->
            check_warning label_text
            = if 2 <=? List.length found
              then (true, "Government warning partially found")
              else (false, "Government warning not found on label")).
  { intros H. unfold check_warning. fold text_lower. now rewrite H. }
  split; [exact Hexact |]. split; [| split; [| split]].
  - intros pre w post -> Hw. apply Hexact. subst text_lower.
    rewrite <- Hw. apply str_in_normalize_text.
    + destruct w; [discriminate | discriminate].
    + rewrite Hw. repeat split; reflexivity.
  - intros H. rewrite (Hrest H).
    destruct (2 <=? List.length found) eqn:E;
      [apply Nat.leb_le in E | apply Nat.leb_gt in E];
      repeat split; intros; try reflexivity; try discriminate; lia.
  - intros H Hd Ho Hh. rewrite (Hrest H). subst found.
    cbn [warning_phrases List.filter]. rewrite Hd, Ho, Hh.
    destruct (str_in "pregnant" text_lower); reflexivity.
  - reflexivity.
Qed.

Lemma check_warning_spec_witness :
  check_warning "Contains Sulfites. GOVERNMENT  Warning: (1) According to"
  = (true, "Government warning found on label")
  /\ check_warning "women who are Pregnant; impairs DRIVING ability"
     = (true, "Government warning partially found").
Proof.
  split.
  - destruct (check_warning_spec
                "Contains Sulfites. GOVERNMENT  Warning: (1) According to")
      as (H & _).
    apply H. reflexivity.
  - destruct (check_warning_spec
                "women who are Pregnant; impairs DRIVING ability")
      as (_ & _ & H & _).
    apply H; [vm_compute; reflexivity | vm_compute; lia].
Defined.

(* ------------------------------------------------------------------ *)
(** ** The net-contents matcher *)

Section VolumeMatcher.

Variables label_text form_volume : string.
Hypothesis provided : form_volume <> "".

Lemma check_volume_no_candidate :
  find_volume label_text = [] ->
  check_volume label_text form_volume
  = (false, "Net contents not found on label (expected " ++ form_volume ++ ")").
Proof.
  intros H. unfold check_volume. apply str_not_false in provided.
  now rewrite provided, H.
Qed.

Lemma check_volume_candidates first rest :
  find_volume label_text = first :: rest ->
  check_volume label_text form_volume =
  match List.find (volume_agrees (normalize_text form_volume)) (first :: rest) with
  | Some label_vol => (true, "Net contents matches: " ++ label_vol)
  | None => (false, "Net contents mismatch: found " ++ first
                    ++ ", expected " ++ form_volume)
  end.
Proof.
  intros H. unfold check_volume. apply str_not_false in provided.
  now rewrite provided, H.
Qed.

End VolumeMatcher.

(** C7. With an expected volume and at least one candidate from the
    label, the matcher succeeds exactly when for some candidate the
    normalised expected value contains the normalised candidate or is
    contained in it; when no candidate agrees it fails and reports the
    first candidate.  The expected value "5 ml" is accepted on a label
    that reads "25 ml". *)
Theorem check_volume_containment label_text form_volume first rest :
  form_volume <> "" ->
  find_volume label_text = first :: rest ->
  (fst (check_volume label_text form_volume) = true
   <-> exists label_vol,
         In label_vol (first :: rest)
         /\ (str_in (normalize_text form_volume) (normalize_text label_vol) = true
             \/ str_in (normalize_text label_vol) (normalize_text form_volume) = true))
  /\ ((forall label_vol,
         In label_vol (first :: rest) ->
         str_in (normalize_text form_volume) (normalize_text label_vol) = false
         /\ str_in (normalize_text label_vol) (normalize_text form_volume) = false) ->
      check_volume label_text form_volume
      = (false, "Net contents mismatch: found " ++ first
                ++ ", expected " ++ form_volume))
  /\ find_volume "25 ml" = ["25 ml"]
  /\ check_volume "25 ml" "5 ml" = (true, "Net contents matches: 25 ml").
Proof.
  intros Hne Hv. rewrite (check_volume_candidates _ _ Hne _ _ Hv).
  split; [| split; [| split; reflexivity]].
  - destruct (List.find _ _) as [c|] eqn:E; simpl.
    + apply find_some in E as [Hin Hc]. split; [intros _ | reflexivity].
      exists c. split; [exact Hin |]. now apply orb_true_iff in Hc.
    + split; [discriminate |]. intros (c & Hin & Hc).
      apply (find_none _ _ E) in Hin. unfold volume_agrees in Hin.
      apply orb_true_iff in Hc. congruence.
  - intros Hall. destruct (List.find _ _) as [c|] eqn:E; [| reflexivity].
    apply find_some in E as [Hin Hc]. destruct (Hall _ Hin) as [H1 H2].
    unfold volume_agrees in Hc. rewrite H1, H2 in Hc. discriminate.
Qed.

Lemma check_volume_containment_witness :
  fst (check_volume "Net 25 ml" "5 ml") = true
  /\ check_volume "Net 750 ml" "350 ml"
     = (false, "Net contents mismatch: found 750 ml, expected 350 ml").
Proof.
  split.
  - apply (check_volume_containment "Net 25 ml" "5 ml" "25 ml" []);
      [discriminate | reflexivity |].
    exists "25 ml". split; [now left | now left].
  - apply (check_volume_containment "Net 750 ml" "350 ml" "750 ml" []);
      [discriminate | reflexivity |].
    intros c [<- | []]. split; reflexivity.
Defined.

(** The candidates are always written with a space before the unit, so an
    expected value without that space agrees with none of them. *)
Lemma check_volume_spacing :
  check_volume "750 mL" "750ml"
  = (false, "Net contents mismatch: found 750 ml, expected 750ml")
  /\ check_volume "750mL" "750 ml" = (true, "Net contents matches: 750 ml").
Proof. split; reflexivity. Qed.

(* ------------------------------------------------------------------ *)
(** ** The alcohol-content matcher *)

Section AlcoholMatcher.

Variable float_str : Float.float -> string.
Variables label_text form_abv : string.
Variable form_value : Float.float.
Hypothesis parses :
  py_float (re_sub re_percent_or_space "" form_abv) = Some form_value.

Lemma parses_provided : str_not form_abv = false.
Proof using parses. destruct form_abv; [discriminate | reflexivity]. Qed.

Lemma check_alcohol_parsed :
  check_alcohol float_str label_text form_abv =
  match find_percentage label_text with
  | [] =>
      (false, "Alcohol content not found on label (expected "
              ++ float_str form_value ++ "%)")
  | first :: _ =>
      match first_close form_value (find_percentage label_text) with
      | Some label_val =>
          (true, "Alcohol content matches: " ++ float_str label_val ++ "%")
      | None =>
          (false, "Alcohol content mismatch: found " ++ float_str first
                  ++ "%, expected " ++ float_str form_value ++ "%")
      end
  end.
Proof using parses.
  unfold check_alcohol. rewrite parses_provided, parses.
  destruct (find_percentage label_text); reflexivity.
Qed.

End AlcoholMatcher.

(** On the percentages 0, 0.5, 1, ..., 100, which a float holds exactly,
    the test is the exact comparison: [j / 2] and [k / 2] are close when
    [j] and [k] differ by at most one. *)
Lemma abv_close_half_steps j k :
  j <= 200 -> k <= 200 ->
  abv_close (Float.of_decimal false (5 * N.of_nat j) (-1))
            (Float.of_decimal false (5 * N.of_nat k) (-1))
  = (j <=? S k) && (k <=? S j).
Proof.
  intros Hj Hk.
  assert (H : forallb (fun j => forallb (fun k =>
                Bool.eqb
                  (abv_close (Float.of_decimal false (5 * N.of_nat j) (-1))
                             (Float.of_decimal false (5 * N.of_nat k) (-1)))
                  ((j <=? S k) && (k <=? S j)))
                (seq 0 201)) (seq 0 201) = true)
    by (vm_compute; reflexivity).
  rewrite forallb_forall in H.
  specialize (H j ltac:(apply in_seq; lia)).
  rewrite forallb_forall in H.
  specialize (H k ltac:(apply in_seq; lia)).
  now apply Bool.eqb_prop in H.
Qed.

(** C2. When the expected value parses to the number [v], the matcher
    succeeds exactly when some percentage found on the label is within
    0.5 of [v], the test being [abs(c - v) <= 0.5] as the program
    evaluates it; when there are candidates and none is that close, it
    fails with a message that gives the first candidate and the expected
    value.  Against the expected value 40.0, a label value of 40.5
    matches and 40.6 does not. *)
Theorem check_alcohol_tolerance float_str label_text form_abv v :
  py_float (re_sub re_percent_or_space "" form_abv) = Some v ->
  (fst (check_alcohol float_str label_text form_abv) = true
   <-> exists c, In c (find_percentage label_text) /\ abv_close c v = true)
  /\ (forall first rest,
        find_percentage label_text = first :: rest ->
        (forall c, In c (first :: rest) -> abv_close c v = false) ->
        check_alcohol float_str label_text form_abv
        = (false, "Alcohol content mismatch: found " ++ float_str first
                  ++ "%, expected " ++ float_str v ++ "%"))
  /\ (find_percentage label_text = [] ->
      check_alcohol float_str label_text form_abv
      = (false, "Alcohol content not found on label (expected "
                ++ float_str v ++ "%)"))
  /\ fst (check_alcohol float_str "40.5%" "40.0") = true
  /\ fst (check_alcohol float_str "40.6%" "40.0") = false.
Proof.
  intros Hv. rewrite (check_alcohol_parsed float_str label_text _ _ Hv).
  unfold first_close.
  split; [| split; [| split; [now intros -> | split; reflexivity]]].
  - destruct (find_percentage label_text) as [|first rest] eqn:El.
    { split; [discriminate | intros (c & [] & _)]. }
    destruct (List.find _ _) as [c|] eqn:E; simpl.
    + apply find_some in E as [Hin Hc]. split; [intros _ | reflexivity].
      now exists c.
    + split; [discriminate |]. intros (c & Hin & Hc).
      apply (find_none _ _ E) in Hin. congruence.
  - intros first rest -> Hall.
    destruct (List.find _ _) as [c|] eqn:E; [| reflexivity].
    apply find_some in E as [Hin Hc]. rewrite (Hall _ Hin) in Hc. discriminate.
Qed.

Lemma check_alcohol_tolerance_witness :
  fst (check_alcohol (fun _ => "?") "ALC 12.5% BY VOL" "13 %") = true
  /\ check_alcohol (fun _ => "?") "ALC 12.5% BY VOL" "14"
     = (false, "Alcohol content mismatch: found ?%, expected ?%").
Proof.
  split.
  - destruct (check_alcohol_tolerance (fun _ => "?") "ALC 12.5% BY VOL" "13 %"
                (Float.of_Z 13) (eq_refl _)) as (H & _).
    apply H. exists (Float.of_decimal false 125 (-1)).
    split; [now left | reflexivity].
  - destruct (check_alcohol_tolerance (fun _ => "?") "ALC 12.5% BY VOL" "14"
                (Float.of_Z 14) (eq_refl _)) as (_ & H & _).
    apply (H (Float.of_decimal false 125 (-1)) []); [reflexivity |].
    intros c [<- | []]. reflexivity.
Defined.

(* ------------------------------------------------------------------ *)
(** ** The request handler *)

Section HandlerProperties.

Variable float_str : Float.float -> string.
Variable image : Type.
Variable Image_open : string -> outcome image.
Variable image_to_string : image -> outcome string.

Variable req : request.
Variable image_file : upload.
Variable img : image.
Variable extracted_text : string.

Hypothesis uploaded : files req !! "image" = Some image_file.
Hypothesis named : filename image_file <> "".
Hypothesis opened : Image_open (content image_file) = Returned img.
Hypothesis recognised : image_to_string img = Returned extracted_text.

(** Past the input gate and the two library calls, the handler is the
    quality gate followed by the checks. *)
Lemma verify_label_gated :
  verify_label float_str image Image_open image_to_string req =
  if unreadable extracted_text
  then (Error "Could not read text from image. Please try a clearer image.", 400)
  else (Results (run_checks float_str extracted_text (form req)), 200).
Proof using uploaded named opened recognised.
  unfold verify_label. rewrite uploaded.
  apply String.eqb_neq in named. rewrite named, opened, recognised.
  reflexivity.
Qed.

End HandlerProperties.

Lemma run_checks_entries float_str extracted_text form_data :
  let net := form_get form_data "netContents" in
  let ran :=
    ([ entry "Brand Name"
         (check_match extracted_text (form_get form_data "brandName") "Brand Name");
       entry "Product Class/Type"
         (check_match extracted_text (form_get form_data "productClass")
                      "Product Class/Type");
       entry "Alcohol Content"
         (check_alcohol float_str extracted_text
                        (form_get form_data "alcoholContent")) ]
     ++ (if str_not net then []
         else [entry "Net Contents" (check_volume extracted_text net)])
     ++ [entry "Government Warning" (check_warning extracted_text)])%list in
  checks (run_checks float_str extracted_text form_data) = ran
  /\ overall_match (run_checks float_str extracted_text form_data)
     = forallb matched ran.
Proof.
  intros net ran. subst ran net. unfold run_checks, record_check, entry.
  destruct (str_not (form_get form_data "netContents")); cbn;
    split; try reflexivity;
    repeat match goal with
           | |- context [fst ?x] => destruct (fst x)
           end; reflexivity.
Qed.

(** C1. A run that passes both gates answers with the results of the
    checks in the order brand name, product class, alcohol content, net
    contents (only when a value was given for it) and government
    warning, one entry for each check that ran, and [overall_match] is
    the conjunction of the [matched] flags of those entries. *)
Theorem verify_label_runs_checks
    float_str image Image_open image_to_string req image_file img extracted_text :
  files req !! "image" = Some image_file ->
  filename image_file <> "" ->
  Image_open (content image_file) = Returned img ->
  image_to_string img = Returned extracted_text ->
  unreadable extracted_text = false ->
  let form_data := form req in
  let net := form_get form_data "netContents" in
  let ran :=
    ([ entry "Brand Name"
         (check_match extracted_text (form_get form_data "brandName") "Brand Name");
       entry "Product Class/Type"
         (check_match extracted_text (form_get form_data "productClass")
                      "Product Class/Type");
       entry "Alcohol Content"
         (check_alcohol float_str extracted_text
                        (form_get form_data "alcoholContent")) ]
     ++ (if str_not net then []
         else [entry "Net Contents" (check_volume extracted_text net)])
     ++ [entry "Government Warning" (check_warning extracted_text)])%list in
  exists r,
    verify_label float_str image Image_open image_to_string req = (Results r, 200)
    /\ checks r = ran
    /\ overall_match r = forallb matched ran.
Proof.
  intros Hup Hname Hopen Hocr Hgate form_data net ran.
  rewrite (verify_label_gated float_str image Image_open image_to_string
             req image_file img extracted_text Hup Hname Hopen Hocr), Hgate.
  eexists. split; [reflexivity |].
  apply run_checks_entries.
Qed.

(** C9. When the trimmed text of the OCR engine has fewer than ten
    characters, the handler answers with the client error that asks for
    a clearer image, whatever the form holds: no result is produced and
    no check contributes to the answer. *)
Theorem verify_label_unreadable
    float_str image Image_open image_to_string req image_file img extracted_text :
  files req !! "image" = Some image_file ->
  filename image_file <> "" ->
  Image_open (content image_file) = Returned img ->
  image_to_string img = Returned extracted_text ->
  String.length (str_strip extracted_text) < 10 ->
  verify_label float_str image Image_open image_to_string req
  = (Error "Could not read text from image. Please try a clearer image.", 400)
  /\ (forall r code,
        verify_label float_str image Image_open image_to_string req
        <> (Results r, code))
  /\ (forall form_data,
        verify_label float_str image Image_open image_to_string
          {| form := form_data; files := files req |}
        = verify_label float_str image Image_open image_to_string req).
Proof.
  intros Hup Hname Hopen Hocr Hshort.
  assert (Hgate : unreadable extracted_text = true).
  { unfold unreadable. apply orb_true_iff. right. now apply Nat.ltb_lt. }
  assert (H : forall form_data,
             verify_label float_str image Image_open image_to_string
               {| form := form_data; files := files req |}
             = (Error "Could not read text from image. Please try a clearer image.", 400)).
  { intros form_data.
    rewrite (verify_label_gated float_str image Image_open image_to_string
               {| form := form_data; files := files req |}
               image_file img extracted_text Hup Hname Hopen Hocr).
    now rewrite Hgate. }
  assert (H0 : verify_label float_str image Image_open image_to_string req
               = (Error "Could not read text from image. Please try a clearer image.", 400)).
  { destruct req as [f fs]. apply H. }
  split; [exact H0 |]. split.
  - intros r code. rewrite H0. discriminate.
  - intros form_data. now rewrite H, H0.
Qed.

Lemma verify_label_runs_checks_witness :
  exists r,
    verify_label (fun _ => "40.0") string Returned Returned
      (sample_request sample_form sample_text) = (Results r, 200)
    /\ map field (checks r)
       = ["Brand Name"; "Product Class/Type"; "Alcohol Content";
          "Net Contents"; "Government Warning"]
    /\ map matched (checks r) = [true; true; true; true; true]
    /\ overall_match r = true.
Proof.
  destruct (verify_label_runs_checks (fun _ => "40.0") string Returned Returned
              (sample_request sample_form sample_text)
              {| filename := "label.png"; content := sample_text |}
              sample_text sample_text)
    as (r & Hr & Hc & Ho);
    [reflexivity | discriminate | reflexivity | reflexivity | reflexivity |].
  exists r. split; [exact Hr |]. rewrite Ho, Hc. repeat split; reflexivity.
Defined.

Lemma verify_label_unreadable_witness :
  verify_label (fun _ => "40.0") string Returned Returned
    (sample_request sample_form "  40%  ")
  = (Error "Could not read text from image. Please try a clearer image.", 400).
Proof.
  apply (verify_label_unreadable (fun _ => "40.0") string Returned Returned
           (sample_request sample_form "  40%  ")
           {| filename := "label.png"; content := "  40%  " |}
           "  40%  " "  40%  ");
    [reflexivity | discriminate | reflexivity | reflexivity | simpl; lia].
Defined.

(* ------------------------------------------------------------------ *)
(** ** Net contents is optional *)

(** C6. Net contents is the only optional field.  Without a value for
    it the volume matcher answers "not required", and the handler does
    not run that check, so the overall result is the conjunction of the
    other four; with a value and no volume on the label the matcher
    fails and names the value.  A missing brand name, product class or
    alcohol content fails its check and the overall result. *)
Theorem net_contents_optional float_str label_text form_data :
  check_volume label_text "" = (true, "Net contents not required")
  /\ (form_data !! "netContents" = None \/ form_data !! "netContents" = Some "" ->
      let r := run_checks float_str label_text form_data in
      map field (checks r)
      = ["Brand Name"; "Product Class/Type"; "Alcohol Content";
         "Government Warning"]
      /\ overall_match r
         = fst (check_match label_text (form_get form_data "brandName")
                            "Brand Name")
           && fst (check_match label_text (form_get form_data "productClass")
                               "Product Class/Type")
           && fst (check_alcohol float_str label_text
                                 (form_get form_data "alcoholContent"))
           && fst (check_warning label_text))
  /\ (forall form_volume,
        form_volume <> "" -> find_volume label_text = [] ->
        check_volume label_text form_volume
        = (false, "Net contents not found on label (expected "
                  ++ form_volume ++ ")"))
  /\ (forall field_name,
        check_match label_text "" field_name
        = (false, field_name ++ " not provided in form"))
  /\ check_alcohol float_str label_text "" = (false, "Alcohol content not provided")
  /\ (form_get form_data "brandName" = ""
      \/ form_get form_data "productClass" = ""
      \/ form_get form_data "alcoholContent" = "" ->
      overall_match (run_checks float_str label_text form_data) = false).
Proof.
  split; [reflexivity |].
  pose proof (run_checks_entries float_str label_text form_data) as [Hc Ho].
  cbv zeta in Hc, Ho.
  split; [| split; [| split; [| split]]].
  - intros Hnet r. subst r. rewrite Ho, Hc.
    assert (Hn : form_get form_data "netContents" = "").
    { unfold form_get. destruct Hnet as [-> | ->]; reflexivity. }
    rewrite Hn. cbn. split; [reflexivity |].
    rewrite andb_true_r, !andb_assoc. reflexivity.
  - intros form_volume Hne Hv. now apply check_volume_no_candidate.
  - reflexivity.
  - reflexivity.
  - intros H. rewrite Ho. cbn [forallb app matched entry].
    destruct H as [-> | [-> | ->]]; cbn [check_match check_alcohol str_not fst];
      rewrite ?andb_false_r; reflexivity.
Qed.

Lemma net_contents_optional_witness :
  map field (checks (run_checks (fun _ => "40.0") sample_text
                                (delete "netContents" sample_form)))
  = ["Brand Name"; "Product Class/Type"; "Alcohol Content"; "Government Warning"]
  /\ check_volume "no volume here" "750 ml"
     = (false, "Net contents not found on label (expected 750 ml)")
  /\ overall_match
       (run_checks (fun _ => "40.0") sample_text (delete "brandName" sample_form))
     = false.
Proof.
  split; [| split].
  - apply (net_contents_optional (fun _ => "40.0") sample_text
             (delete "netContents" sample_form)).
    left. reflexivity.
  - apply (net_contents_optional (fun _ => "40.0") "no volume here" sample_form);
      [discriminate | reflexivity].
  - apply (net_contents_optional (fun _ => "40.0") sample_text
             (delete "brandName" sample_form)).
    left. reflexivity.
Defined.

(* ------------------------------------------------------------------ *)
(** ** What the matcher finds is a word of the pattern *)

Lemma str_take_append w s : str_take (String.length w) (w ++ s) = w.
Proof. induction w as [|c w IH]; simpl; [now destruct s | now rewrite IH]. Qed.

Lemma rmatch_sound {R} r :
  forall s g (k : string -> groups -> option R) x,
    rmatch r s g k = Some x ->
    exists w s' g', s = w ++ s' /\ matches r w g g' /\ k s' g' = Some x.
Proof.
  induction r as [| p | a IHa b IHb | a IHa b IHb | a IHa | i a IHa];
    intros s g k x H.
  - exists "", s, g. repeat split; [constructor | exact H].
  - rewrite rmatch_char in H. destruct s as [|c t]; [discriminate |].
    destruct (p c) eqn:E; [| discriminate].
    exists (String c ""), t, g. repeat split; [now constructor | exact H].
  - rewrite rmatch_seq in H.
    apply IHa in H as (w1 & s1 & g1 & -> & Ha & H).
    apply IHb in H as (w2 & s2 & g2 & -> & Hb & H).
    exists (w1 ++ w2), s2, g2. rewrite append_assoc.
    repeat split; [econstructor; eassumption | exact H].
  - rewrite rmatch_alt in H. destruct (rmatch a s g k) eqn:E.
    + injection H as ->. apply IHa in E as (w & s' & g' & -> & Ha & H).
      exists w, s', g'. repeat split; [now apply M_alt_l | exact H].
    + apply IHb in H as (w & s' & g' & -> & Hb & H).
      exists w, s', g'. repeat split; [now apply M_alt_r | exact H].
  - cbn [rmatch] in H. revert H. generalize (String.length s) at 1.
    intros n. revert s g. induction n as [|n IHn]; intros s g H.
    + exists "", s, g. repeat split; [constructor | exact H].
    + destruct (rmatch a s g _) eqn:E.
      * injection H as ->. apply IHa in E as (w1 & s1 & g1 & -> & Ha & H).
        destruct (String.length s1 <? String.length (w1 ++ s1));
          [| discriminate].
        apply IHn in H as (w2 & s2 & g2 & -> & Hs & H).
        exists (w1 ++ w2), s2, g2. rewrite append_assoc.
        repeat split; [econstructor; eassumption | exact H].
      * exists "", s, g. repeat split; [constructor | exact H].
  - rewrite rmatch_group in H.
    apply IHa in H as (w & s' & g' & -> & Ha & H).
    replace (String.length (w ++ s') - String.length s')
      with (String.length w) in H by (rewrite length_append; lia).
    rewrite str_take_append in H.
    exists w, s', ((i, w) :: g'). repeat split; [now constructor | exact H].
Qed.

Lemma re_match_sound r s n g :
  re_match r s = Some (n, g) ->
  exists w s', s = w ++ s' /\ matches r w [] g /\ n = String.length w.
Proof.
  intros H. apply rmatch_sound in H as (w & s' & g' & -> & Hm & H).
  injection H as <- <-. exists w, s'. repeat split; [exact Hm |].
  rewrite length_append. lia.
Qed.

Lemma matches_star_space w g g' :
  matches (RStar re_space) w g g' -> g' = g /\ all_space w = true.
Proof.
  intros H. remember (RStar re_space) as r eqn:Er.
  induction H as [| | | | | a g | a w1 w2 g g1 g2 Ha _ Hs IH |];
    try discriminate.
  - now split.
  - injection Er as ->. inversion Ha; subst.
    destruct (IH eq_refl) as [-> Hw]. split; [reflexivity |].
    simpl. now rewrite Hw, andb_true_r.
Qed.

(** The shape of a match of the percentage pattern. *)
Lemma re_match_percent s n g :
  re_match re_percent s = Some (n, g) ->
  exists numeral ws rest,
    s = numeral ++ ws ++ "%" ++ rest /\ all_space ws = true
    /\ group 1 g = numeral.
Proof.
  intros H. apply re_match_sound in H as (w & s' & -> & Hm & _).
  unfold re_percent in Hm.
  inversion Hm as [| | a b w1 w23 g0 g1 g2 Hg H23 | | | | |]; subst.
  inversion Hg as [| | | | | | | i a w0 g0 g1' Hn]; subst.
  inversion H23 as [| | a b w2 w3 g0 g3 g4 Hs Hl | | | | |]; subst.
  apply matches_star_space in Hs as [-> Hs].
  inversion Hl as [| p c g0 Hc | | | | | |]; subst.
  apply Ascii.eqb_eq in Hc. subst c.
  exists w1, w2, s'. repeat split; [| exact Hs].
  now rewrite !append_assoc.
Qed.

(* ------------------------------------------------------------------ *)
(** ** The scan reports matches from left to right *)

Lemma re_finditer_from_cons r pos skip c t :
  re_finditer_from r pos skip (String c t) =
  match skip with
  | S k => re_finditer_from r (S pos) k t
  | O =>
      match re_match r (String c t) with
      | Some (S n, g) => (pos, g) :: re_finditer_from r (S pos) n t
      | _ => re_finditer_from r (S pos) 0 t
      end
  end.
Proof. reflexivity. Qed.

(** Every reported match is a match of the pattern at its position. *)
Lemma re_finditer_from_match r s :
  forall pos skip p g,
    In (p, g) (re_finditer_from r pos skip s) ->
    pos <= p /\ exists n, re_match r (str_drop (p - pos) s) = Some (S n, g).
Proof.
  induction s as [|c t IH]; intros pos skip p g H; [destruct H |].
  rewrite re_finditer_from_cons in H.
  assert (Hnext : forall k, In (p, g) (re_finditer_from r (S pos) k t) ->
            pos <= p /\ exists n,
              re_match r (str_drop (p - pos) (String c t)) = Some (S n, g)).
  { intros k Hk. apply IH in Hk as [Hle [n Hn]]. split; [lia |].
    exists n. replace (p - pos) with (S (p - S pos)) by lia. exact Hn. }
  destruct skip as [|k]; [| now apply Hnext in H].
  destruct (re_match r (String c t)) as [[[|n] g0]|] eqn:E;
    try (now apply Hnext in H).
  destruct H as [H | H]; [| now apply Hnext in H].
  injection H as <- <-. split; [lia |]. exists n.
  now rewrite Nat.sub_diag.
Qed.

Lemma re_finditer_from_sorted r s :
  forall pos skip,
    StronglySorted lt (map fst (re_finditer_from r pos skip s)).
Proof.
  induction s as [|c t IH]; intros pos skip; [constructor |].
  rewrite re_finditer_from_cons.
  destruct skip as [|k]; [| apply IH].
  destruct (re_match r (String c t)) as [[[|n] g0]|]; try apply IH.
  cbn [map fst]. constructor; [apply IH |].
  apply List.Forall_forall. intros p Hp. apply in_map_iff in Hp as ([p' g] & <- & Hp).
  apply re_finditer_from_match in Hp as [Hp _]. simpl. lia.
Qed.

(** Keeping some of the matches keeps their order. *)
Lemma flat_map_sorted {A B} (f : nat * A -> list (nat * B)) l :
  (forall m x, In x (f m) -> fst x = fst m) ->
  (forall m, List.length (f m) <= 1) ->
  StronglySorted lt (map fst l) ->
  StronglySorted lt (map fst (flat_map f l)).
Proof.
  intros Hf H1. induction l as [|m l IH]; intros Hs; [constructor |].
  cbn [flat_map map] in *. apply StronglySorted_inv in Hs as [Hs Hall].
  specialize (IH Hs). rewrite map_app.
  specialize (H1 m). pose proof (Hf m) as Hm.
  destruct (f m) as [|x [|y rest]]; [exact IH | | simpl in H1; lia].
  cbn [map app]. constructor; [exact IH |].
  rewrite (Hm x (or_introl eq_refl)).
  apply List.Forall_forall. intros p Hp.
  apply in_map_iff in Hp as (y & <- & Hy).
  apply in_flat_map in Hy as (m' & Hm' & Hy).
  rewrite (Hf _ _ Hy). rewrite List.Forall_forall in Hall. apply Hall.
  now apply in_map.
Qed.

(* ------------------------------------------------------------------ *)
(** ** Percentage extraction *)

Lemma find_percentage_hits text :
  find_percentage text = map snd (percent_hits text).
Proof.
  unfold find_percentage, percent_hits, re_findall1.
  induction (re_finditer re_percent (str_lower text)) as [|m l IH];
    [reflexivity |].
  cbn [map flat_map]. rewrite map_app, IH. f_equal.
  destruct (py_float (group 1 (snd m))) as [val|]; [| reflexivity].
  destruct (in_percent_range val); reflexivity.
Qed.

Lemma percent_hits_inv text p v :
  In (p, v) (percent_hits text) ->
  in_percent_range v = true
  /\ exists g, In (p, g) (re_finditer re_percent (str_lower text))
               /\ py_float (group 1 g) = Some v.
Proof.
  unfold percent_hits. intros H.
  apply in_flat_map in H as ([p' g] & Hin & H). cbn [fst snd] in H.
  destruct (py_float (group 1 g)) as [val|] eqn:E; [| destruct H].
  destruct (in_percent_range val) eqn:Er; [| destruct H].
  destruct H as [H | []]. injection H as <- <-.
  split; [exact Er |]. now exists g.
Qed.

(** A value in range is a number: zero or a positive finite float. *)
Lemma in_percent_range_number v :
  in_percent_range v = true ->
  match v with
  | S754_zero _ | S754_finite false _ _ => True
  | _ => False
  end.
Proof. destruct v as [s | [] | | [] m e]; try discriminate; exact (fun _ => I). Qed.

(** C5. Percentage extraction returns only values [val] with
    [0 <= val <= 100]: a percentage outside that range is dropped and
    nothing is raised.  The values come in the order in which they occur
    in the text: each one is a number followed by optional whitespace
    and a percent sign, found at a position of the lowercased text, and
    these positions increase along the result.  On "45%" the result is
    [45.0], on "145%" it is empty. *)
Theorem find_percentage_spec text :
  (forall val, In val (find_percentage text) ->
     in_percent_range val = true
     /\ match val with
        | S754_zero _ | S754_finite false _ _ => True
        | _ => False
        end)
  /\ find_percentage text = map snd (percent_hits text)
  /\ StronglySorted lt (map fst (percent_hits text))
  /\ (forall p val,
        In (p, val) (percent_hits text) ->
        exists numeral ws rest,
          str_drop p (str_lower text) = numeral ++ ws ++ "%" ++ rest
          /\ all_space ws = true /\ py_float numeral = Some val)
  /\ find_percentage "45%" = [Float.of_Z 45]
  /\ find_percentage "145%" = [].
Proof.
  split; [| split; [| split; [| split; [| split; reflexivity]]]].
  - intros val H. rewrite find_percentage_hits in H.
    apply in_map_iff in H as ([p v] & <- & H).
    apply percent_hits_inv in H as [H _].
    split; [exact H | now apply in_percent_range_number].
  - apply find_percentage_hits.
  - unfold percent_hits. apply flat_map_sorted.
    + intros m x H. destruct (py_float _) as [v|]; [| destruct H].
      destruct (in_percent_range v); [| destruct H].
      destruct H as [<- | []]. reflexivity.
    + intros m. destruct (py_float _) as [v|]; [| simpl; lia].
      destruct (in_percent_range v); simpl; lia.
    + apply re_finditer_from_sorted.
  - intros p val H. apply percent_hits_inv in H as (_ & g & Hin & Hv).
    apply re_finditer_from_match in Hin as (_ & n & Hm).
    rewrite Nat.sub_0_r in Hm.
    apply re_match_percent in Hm as (numeral & ws & rest & Hs & Hw & Hg).
    exists numeral, ws, rest. rewrite <- Hg in Hs at 1.
    repeat split; [| exact Hw | now rewrite <- Hg].
    now rewrite Hg in Hs.
Qed.

Lemma find_percentage_spec_witness :
  in_percent_range (Float.of_Z 45) = true
  /\ exists numeral ws rest,
       str_drop 9 (str_lower "ABV 145% 45 % vol")
       = numeral ++ ws ++ "%" ++ rest
       /\ all_space ws = true /\ py_float numeral = Some (Float.of_Z 45).
Proof.
  split.
  - apply (find_percentage_spec "ABV 145% 45 % vol").
    vm_compute. left. reflexivity.
  - apply (find_percentage_spec "ABV 145% 45 % vol").
    vm_compute. left. reflexivity.
Defined.

(* ================================================================== *)
(** * Further properties of the matching engine *)

(* ------------------------------------------------------------------ *)
(** ** Normalisation and containment *)

Lemma str_lstrip_decompose s :
  exists lead, all_space lead = true /\ s = lead ++ str_lstrip s.
Proof.
  induction s as [|c s (lead & Hl & E)]; [now exists "" |].
  cbn [str_lstrip]. destruct (Char.isspace c) eqn:Ec.
  - exists (String c lead). cbn [all_space String.append]. rewrite Ec, Hl.
    split; [reflexivity | now rewrite <- E].
  - now exists "".
Qed.

Lemma str_rstrip_decompose s :
  exists trail, all_space trail = true /\ s = str_rstrip s ++ trail.
Proof.
  induction s as [|c s (trail & Ht & E)]; [now exists "" |].
  rewrite str_rstrip_cons. destruct (str_not (str_rstrip s)) eqn:En.
  - apply str_not_true in En. rewrite En in E. cbn [String.append] in E.
    subst s. destruct (Char.isspace c) eqn:Ec.
    + exists (String c trail). cbn [all_space String.append].
      now rewrite Ec, Ht.
    + now exists trail.
  - exists trail. split; [exact Ht |]. cbn [String.append]. now rewrite <- E.
Qed.

Lemma squeeze_no_lead b s :
  starts_space s = false -> squeeze b s = squeeze false s.
Proof. destruct s as [|c s]; [reflexivity |]. simpl. now intros ->. Qed.

Lemma starts_space_append x y :
  x <> "" -> starts_space (x ++ y) = starts_space x.
Proof. destruct x; [congruence | reflexivity]. Qed.

Lemma append_ne_nil_l x y : x <> "" -> x ++ y <> "".
Proof. destruct x; [congruence | discriminate]. Qed.

Lemma append_ne_nil_r x y : y <> "" -> x ++ y <> "".
Proof. intros H E. apply append_eq_nil in E. now destruct E. Qed.

(** The normal form of a piece of text occurs in the normal form of any
    text around it. *)
Lemma normalize_text_append pre w post :
  str_in (normalize_text w) (normalize_text (pre ++ w ++ post)) = true.
Proof.
  rewrite !normalize_text_squeeze, !str_lower_append.
  generalize (str_lower pre) (str_lower w) (str_lower post).
  clear pre w post. intros P W Q.
  destruct (str_lstrip_decompose W) as (lead & Hl & EW).
  destruct (str_rstrip_decompose (str_lstrip W)) as (trail & Ht & EL).
  pose proof (starts_space_strip W) as Hs.
  pose proof (ends_space_strip W) as He.
  change (str_rstrip (str_lstrip W)) with (str_strip W) in EL.
  remember (str_strip W) as core eqn:Ec.
  destruct (str_not core) eqn:En.
  { apply str_not_true in En. subst core. rewrite En. apply str_in_nil. }
  apply str_not_false in En.
  assert (E : P ++ W ++ Q = (P ++ lead) ++ core ++ (trail ++ Q)).
  { rewrite EW at 1. rewrite EL. now rewrite !append_assoc. }
  rewrite E. unfold str_strip.
  rewrite str_lstrip_append;
    [| now apply append_ne_nil_l | now rewrite starts_space_append].
  rewrite <- append_assoc, str_rstrip_append;
    [| now apply append_ne_nil_r | now rewrite ends_space_append].
  rewrite !squeeze_append.
  match goal with
  | |- context [squeeze (if ?c then ?x else ?y) core] =>
      rewrite (squeeze_no_lead (if c then x else y) core Hs)
  end.
  rewrite append_assoc. apply str_in_append.
Qed.

(** Stripping and squeezing keep containment. *)
Lemma squeeze_strip_append P W Q :
  str_in (squeeze false (str_strip W))
         (squeeze false (str_strip (P ++ W ++ Q))) = true.
Proof.
  destruct (str_lstrip_decompose W) as (lead & Hl & EW).
  destruct (str_rstrip_decompose (str_lstrip W)) as (trail & Ht & EL).
  pose proof (starts_space_strip W) as Hs.
  pose proof (ends_space_strip W) as He.
  change (str_rstrip (str_lstrip W)) with (str_strip W) in EL.
  remember (str_strip W) as core eqn:Ec.
  destruct (str_not core) eqn:En.
  { apply str_not_true in En. rewrite En. apply str_in_nil. }
  apply str_not_false in En.
  assert (E : P ++ W ++ Q = (P ++ lead) ++ core ++ (trail ++ Q)).
  { rewrite EW at 1. rewrite EL. now rewrite !append_assoc. }
  rewrite E. unfold str_strip.
  rewrite str_lstrip_append;
    [| now apply append_ne_nil_l | now rewrite starts_space_append].
  rewrite <- append_assoc, str_rstrip_append;
    [| now apply append_ne_nil_r | now rewrite ends_space_append].
  rewrite !squeeze_append.
  match goal with
  | |- context [squeeze (if ?c then ?x else ?y) core] =>
      rewrite (squeeze_no_lead (if c then x else y) core Hs)
  end.
  rewrite append_assoc. apply str_in_append.
Qed.

(** X1. Normalisation keeps containment of lowercased text: when the
    lowercase form of a string occurs in the lowercase form of a text,
    the normal form of the string occurs in the normal form of the
    text. *)
Theorem normalize_text_preserves_in w text :
  str_in (str_lower w) (str_lower text) = true ->
  str_in (normalize_text w) (normalize_text text) = true.
Proof.
  intros H. apply str_in_inv in H as (P & Q & E).
  rewrite !normalize_text_squeeze, E. apply squeeze_strip_append.
Qed.

Lemma normalize_text_preserves_in_witness :
  str_in (normalize_text (String "009" "Barrel  RESERVE "))
         (normalize_text ("Old " ++ String "009" "Barrel  RESERVE 12"))
  = true.
Proof.
  apply (normalize_text_preserves_in (String "009" "Barrel  RESERVE ")
           ("Old " ++ String "009" "Barrel  RESERVE 12")).
  vm_compute. reflexivity.
Defined.

(** X2. A text-field value that is printed on the label is found,
    whatever its case and however its whitespace is laid out: when the
    lowercased label contains the lowercase form of a string that has
    the normal form of the expected value, the matcher answers "found on
    label". *)
Theorem check_match_finds_printed_value label_text form_value field_name w :
  form_value <> "" ->
  str_in (str_lower w) (str_lower label_text) = true ->
  normalize_text w = normalize_text form_value ->
  check_match label_text form_value field_name
  = (true, field_name ++ " found on label").
Proof.
  intros Hne Hin Hn. unfold check_match.
  apply str_not_false in Hne. rewrite Hne, <- Hn.
  apply str_in_inv in Hin as (P & Q & E).
  rewrite !normalize_text_squeeze, E.
  now rewrite squeeze_strip_append.
Qed.

Lemma check_match_finds_printed_value_witness :
  check_match ("OLD" ++ String "010" "BARREL  Whiskey 40%") "Old Barrel"
              "Brand Name"
  = (true, "Brand Name found on label").
Proof.
  apply (check_match_finds_printed_value
           ("OLD" ++ String "010" "BARREL  Whiskey 40%") "Old Barrel"
           "Brand Name" ("OLD" ++ String "010" "BARREL"));
    [discriminate | vm_compute; reflexivity | vm_compute; reflexivity].
Defined.

(* ------------------------------------------------------------------ *)
(** ** The warning phrases in any case *)

Lemma warning_phrase_in_normalized text p w :
  In p warning_phrases -> str_lower w = p -> str_in w text = true ->
  str_in p (normalize_text text) = true.
Proof.
  intros Hp Hw Hin. apply str_in_inv in Hin as (pre & post & ->).
  assert (Hn : normalize_text w = p).
  { rewrite normalize_text_squeeze, Hw.
    destruct Hp as [<- | [<- | [<- | [<- | []]]]]; reflexivity. }
  rewrite <- Hn. apply normalize_text_append.
Qed.

(** X3. A label that prints two different phrases of the warning, in any
    case, passes the government-warning check. *)
Theorem check_warning_two_phrases label_text p1 p2 w1 w2 :
  In p1 warning_phrases -> In p2 warning_phrases -> p1 <> p2 ->
  str_lower w1 = p1 -> str_lower w2 = p2 ->
  str_in w1 label_text = true -> str_in w2 label_text = true ->
  fst (check_warning label_text) = true.
Proof.
  intros Hp1 Hp2 Hne Hw1 Hw2 Hin1 Hin2.
  pose proof (warning_phrase_in_normalized _ _ _ Hp1 Hw1 Hin1) as H1.
  pose proof (warning_phrase_in_normalized _ _ _ Hp2 Hw2 Hin2) as H2.
  unfold check_warning.
  destruct (str_in "government warning" (normalize_text label_text));
    [reflexivity |].
  cbn [warning_phrases List.filter].
  destruct Hp1 as [<- | [<- | [<- | [<- | []]]]];
    destruct Hp2 as [<- | [<- | [<- | [<- | []]]]];
    try congruence; rewrite H1, H2;
    repeat match goal with
           | |- context [if str_in ?p ?t then _ else _] => destruct (str_in p t)
           end; reflexivity.
Qed.

Lemma check_warning_two_phrases_witness :
  fst (check_warning "may cause HEALTH PROBLEMS. Do not drink while Pregnant")
  = true.
Proof.
  apply (check_warning_two_phrases
           "may cause HEALTH PROBLEMS. Do not drink while Pregnant"
           "health problems" "pregnant" "HEALTH PROBLEMS" "Pregnant");
    try (vm_compute; reflexivity).
  - right. right. right. left. reflexivity.
  - left. reflexivity.
  - discriminate.
Defined.

(* ------------------------------------------------------------------ *)
(** ** Normalisation joins the tokens *)

Lemma str_split_ne s : s <> "" -> starts_space s = false -> str_split s <> [].
Proof.
  destruct s as [|c t]; [congruence |]. cbn [starts_space]. intros _ Hc.
  rewrite str_split_cons, Hc.
  destruct (str_not t || starts_space t); [discriminate |].
  destruct (str_split t); discriminate.
Qed.

Lemma concat_cons sep x l :
  l <> [] -> String.concat sep (x :: l) = x ++ sep ++ String.concat sep l.
Proof. destruct l; [congruence | reflexivity]. Qed.

Lemma concat_cons_char sep c w l :
  String.concat sep (String c w :: l) = String c (String.concat sep (w :: l)).
Proof. destruct l; reflexivity. Qed.

Lemma concat_split s :
  ends_space s = false -> single_spaced s = true ->
  String.concat " " (str_split s) = str_lstrip s.
Proof.
  induction s as [|c t IH]; [reflexivity |].
  rewrite ends_space_cons. cbn [single_spaced str_lstrip].
  rewrite str_split_cons. intros He Hq.
  apply andb_true_iff in Hq as [Hc Hq].
  destruct (Char.isspace c) eqn:Ec.
  - destruct (str_not t) eqn:Et; [congruence |]. now apply IH.
  - destruct t as [|d t'].
    + reflexivity.
    + cbn [str_not orb] in *. specialize (IH He Hq).
      destruct (starts_space (String d t')) eqn:Ed.
      * cbn [starts_space] in Ed. cbn [single_spaced] in Hq.
        rewrite Ed in Hq. apply andb_true_iff in Hq as [Hd _].
        apply andb_true_iff in Hd as [Hd Hn].
        apply Ascii.eqb_eq in Hd. subst d. apply negb_true_iff in Hn.
        cbn [str_lstrip] in IH. rewrite Ed in IH.
        rewrite (str_lstrip_id _ Hn) in IH.
        assert (Hne : t' <> "").
        { intros ->. rewrite ends_space_cons in He. cbn in He. congruence. }
        rewrite concat_cons, IH; [reflexivity |].
        rewrite str_split_cons, Ed. now apply str_split_ne.
      * rewrite (str_lstrip_id _ Ed) in IH.
        destruct (str_split (String d t')) as [|w ws] eqn:Es.
        { now apply str_split_ne in Es. }
        now rewrite concat_cons_char, IH.
Qed.

(** X4. Normalising a text is splitting its lowercase form at whitespace
    and joining the tokens with single spaces. *)
Theorem normalize_text_join text :
  normalize_text text = String.concat " " (str_split (str_lower text)).
Proof.
  destruct (normalize_text_normalized text) as (_ & Hs & He & Hq).
  rewrite <- (str_lstrip_id _ Hs), <- (concat_split _ He Hq).
  now rewrite str_split_normalize_text, str_split_lower.
Qed.

Lemma length_str_lstrip s : String.length (str_lstrip s) <= String.length s.
Proof.
  induction s as [|c s IH]; simpl; [lia |].
  destruct (Char.isspace c); simpl; lia.
Qed.

Lemma length_str_rstrip s : String.length (str_rstrip s) <= String.length s.
Proof.
  induction s as [|c s IH]; [simpl; lia |].
  rewrite str_rstrip_cons.
  destruct (str_not (str_rstrip s)); [destruct (Char.isspace c) |]; simpl; lia.
Qed.

Lemma length_squeeze b s : String.length (squeeze b s) <= String.length s.
Proof.
  revert b. induction s as [|c s IH]; intros b; simpl; [lia |].
  destruct (Char.isspace c); [destruct b |]; simpl;
    pose proof (IH true); pose proof (IH false); lia.
Qed.

(** X5. The normal form of a text is never longer than its lowercase
    form, and it has as many tokens as the text. *)
Theorem normalize_text_length text :
  String.length (normalize_text text) <= String.length (str_lower text)
  /\ List.length (str_split (normalize_text text))
     = List.length (str_split text).
Proof.
  split.
  - rewrite normalize_text_squeeze. unfold str_strip.
    pose proof (length_squeeze false (str_rstrip (str_lstrip (str_lower text)))).
    pose proof (length_str_rstrip (str_lstrip (str_lower text))).
    pose proof (length_str_lstrip (str_lower text)).
    lia.
  - now rewrite str_split_normalize_text, length_map.
Qed.

(* ------------------------------------------------------------------ *)
(** ** The answers of the request handler *)

Section HandlerAnswers.

Variable float_str : Float.float -> string.
Variable image : Type.
Variable Image_open : string -> outcome image.
Variable image_to_string : image -> outcome string.

(** X6. The handler answers with results only for a request that carries
    a named image which the decoder and the OCR engine both accept and
    whose text keeps at least ten characters once trimmed; the status is
    then 200 and the results are those of the checks on that text. *)
Theorem verify_label_results_inv req r code :
  verify_label float_str image Image_open image_to_string req
  = (Results r, code) ->
  code = 200
  /\ exists image_file img extracted_text,
       files req !! "image" = Some image_file
       /\ filename image_file <> ""
       /\ Image_open (content image_file) = Returned img
       /\ image_to_string img = Returned extracted_text
       /\ 10 <= String.length (str_strip extracted_text)
       /\ r = run_checks float_str extracted_text (form req).
Proof.
  unfold verify_label. intros H.
  destruct (files req !! "image") as [image_file|]; [| discriminate].
  destruct (String.eqb (filename image_file) "") eqn:En; [discriminate |].
  destruct (Image_open (content image_file)) as [img|e] eqn:Eo;
    [| discriminate].
  destruct (image_to_string img) as [extracted_text|e] eqn:Er;
    [| discriminate].
  destruct (unreadable extracted_text) eqn:Eu; [discriminate |].
  injection H as <- <-. split; [reflexivity |].
  exists image_file, img, extracted_text.
  apply String.eqb_neq in En. unfold unreadable in Eu.
  apply orb_false_iff in Eu as [_ Eu]. apply Nat.ltb_ge in Eu.
  repeat split; assumption.
Qed.

(** X7. The status and the body of an answer always agree: 200 comes
    with results, 400 with a plain error and 500 with an error that
    carries details; and the status is 500 exactly when a named image
    was uploaded and the decoder or the OCR engine raised. *)
Theorem verify_label_status req :
  let answer :=
    verify_label float_str image Image_open image_to_string req in
  (snd answer = 200 <-> exists r, fst answer = Results r)
  /\ (snd answer = 400 <-> exists e, fst answer = Error e)
  /\ (snd answer = 500 <-> exists e d, fst answer = ErrorDetails e d)
  /\ (snd answer = 500
      <-> exists image_file,
            files req !! "image" = Some image_file
            /\ filename image_file <> ""
            /\ ((exists e, Image_open (content image_file) = Raised e)
                \/ (exists img e,
                      Image_open (content image_file) = Returned img
                      /\ image_to_string img = Raised e))).
Proof.
  intros answer.
  assert (Hcases :
    (answer = (Error "No image file provided", 400)
     /\ files req !! "image" = None)
    \/ (exists f, answer = (Error "No image file selected", 400)
                  /\ files req !! "image" = Some f /\ filename f = "")
    \/ (exists f e d, answer = (ErrorDetails e d, 500)
                      /\ files req !! "image" = Some f /\ filename f <> ""
                      /\ (Image_open (content f) = Raised d
                          \/ exists img,
                               Image_open (content f) = Returned img
                               /\ image_to_string img = Raised d))
    \/ (exists f img t e, answer = (Error e, 400)
                          /\ files req !! "image" = Some f
                          /\ Image_open (content f) = Returned img
                          /\ image_to_string img = Returned t)
    \/ (exists f img t r, answer = (Results r, 200)
                          /\ files req !! "image" = Some f
                          /\ Image_open (content f) = Returned img
                          /\ image_to_string img = Returned t)).
  { subst answer. unfold verify_label.
    destruct (files req !! "image") as [f|]; [| now left].
    destruct (String.eqb (filename f) "") eqn:En.
    { apply String.eqb_eq in En. right. left. now exists f. }
    apply String.eqb_neq in En.
    destruct (Image_open (content f)) as [img|d] eqn:Eo.
    2: { right. right. left. exists f, "An error occurred", d.
         repeat split; try assumption. now left. }
    destruct (image_to_string img) as [t|d] eqn:Er.
    2: { right. right. left. exists f, "Failed to process image", d.
         repeat split; try assumption. right. now exists img. }
    destruct (unreadable t).
    - right. right. right. left. exists f, img, t. eexists.
      repeat split; try reflexivity; assumption.
    - right. right. right. right. exists f, img, t. eexists.
      repeat split; try reflexivity; assumption. }
  clearbody answer.
  destruct Hcases
    as [[-> Hf] | [(f & -> & Hf & Hn) | [(f & e & d & -> & Hf & Hn & Hd)
        | [(f & img & t & e & -> & Hf & Ho & Hr)
           | (f & img & t & r & -> & Hf & Ho & Hr)]]]];
    cbn [fst snd]; (split; [| split; [| split]]); split;
    try discriminate; try (intros _; reflexivity);
    try (intros _; now eexists); try (intros _; now do 2 eexists);
    try (intros H;
         repeat match goal with
                | H : exists _, _ |- _ => destruct H
                end; discriminate).
  - intros (f' & Hf' & _). congruence.
  - intros (f' & Hf' & Hn' & _). congruence.
  - intros _. exists f. repeat split; try assumption.
    destruct Hd as [Hd | (img & Ho & Hr)];
      [left; now exists d | right; exists img, d; now split].
  - intros (f' & Hf' & _ & [[d Hd] | (i & d & Hi & Hd)]);
      rewrite Hf in Hf'; injection Hf' as <-; congruence.
  - intros (f' & Hf' & _ & [[d Hd] | (i & d & Hi & Hd)]);
      rewrite Hf in Hf'; injection Hf' as <-; congruence.
Qed.

(** The handler reads the form through [form_get] at four keys. *)
Lemma run_checks_form_get extracted_text form1 form2 :
  (forall key,
     In key ["brandName"; "productClass"; "alcoholContent"; "netContents"] ->
     form_get form1 key = form_get form2 key) ->
  run_checks float_str extracted_text form1
  = run_checks float_str extracted_text form2.
Proof.
  intros H. unfold run_checks.
  rewrite (H "brandName"), (H "productClass"), (H "alcoholContent"),
    (H "netContents"); [reflexivity | | | |]; simpl; tauto.
Qed.

(** X8. The answer depends on the form only through the fields
    brandName, productClass, alcoholContent and netContents, a missing
    field counting as an empty one: requests with the same upload whose
    forms agree on these four give the same answer. *)
Theorem verify_label_form_fields req form_data :
  (forall key,
     In key ["brandName"; "productClass"; "alcoholContent"; "netContents"] ->
     form_get form_data key = form_get (form req) key) ->
  verify_label float_str image Image_open image_to_string
    {| form := form_data; files := files req |}
  = verify_label float_str image Image_open image_to_string req.
Proof.
  intros H. unfold verify_label. cbn [form files].
  destruct (files req !! "image") as [image_file|]; [| reflexivity].
  destruct (String.eqb (filename image_file) ""); [reflexivity |].
  destruct (Image_open (content image_file)) as [img|e]; [| reflexivity].
  destruct (image_to_string img) as [extracted_text|e]; [| reflexivity].
  destruct (unreadable extracted_text); [reflexivity |].
  now rewrite (run_checks_form_get extracted_text form_data (form req) H).
Qed.

End HandlerAnswers.

Lemma verify_label_results_inv_witness :
  exists image_file,
    files (sample_request sample_form sample_text) !! "image" = Some image_file
    /\ filename image_file <> "".
Proof.
  destruct (verify_label_results_inv (fun _ => "40.0") string Returned Returned
              (sample_request sample_form sample_text)
              (run_checks (fun _ => "40.0") sample_text sample_form) 200
              eq_refl)
    as (_ & image_file & img & text & H1 & H2 & _).
  exists image_file. split; assumption.
Defined.

Lemma verify_label_form_fields_witness :
  verify_label (fun _ => "40.0") string Returned Returned
    (sample_request
       (<["notes" := "rush order"]> (<["netContents" := ""]>
          (delete "netContents" sample_form))) sample_text)
  = verify_label (fun _ => "40.0") string Returned Returned
      (sample_request (delete "netContents" sample_form) sample_text).
Proof.
  apply (verify_label_form_fields (fun _ => "40.0") string Returned Returned
           (sample_request (delete "netContents" sample_form) sample_text)).
  intros key [<- | [<- | [<- | [<- | []]]]]; reflexivity.
Defined.

Lemma length_str_take n s : String.length (str_take n s) <= n.
Proof.
  revert s. induction n as [|n IH]; intros [|c s]; simpl; try lia.
  specialize (IH s). lia.
Qed.

Lemma str_take_all n s : String.length s <= n -> str_take n s = s.
Proof.
  revert s. induction n as [|n IH]; intros [|c s]; simpl; intros H;
    try reflexivity; try lia.
  rewrite IH; [reflexivity | lia].
Qed.

Lemma str_take_take_append n s t :
  n <= String.length s -> str_take n (str_take n s ++ t) = str_take n s.
Proof.
  revert s. induction n as [|n IH]; intros [|c s]; simpl; intros H;
    try reflexivity; try lia.
  rewrite IH; [reflexivity | lia].
Qed.

Lemma record_check_preview name r res :
  extracted_text_preview (record_check name r res) = extracted_text_preview res.
Proof. reflexivity. Qed.

(** X9. The preview sent with the results has at most 203 characters and
    starts with the first 200 characters of the extracted text; a text
    of at most 200 characters is sent whole. *)
Theorem run_checks_preview float_str extracted_text form_data :
  let preview :=
    extracted_text_preview (run_checks float_str extracted_text form_data) in
  String.length preview <= 203
  /\ str_take 200 preview = str_take 200 extracted_text
  /\ (String.length extracted_text <= 200 -> preview = extracted_text).
Proof.
  assert (E : extracted_text_preview
                (run_checks float_str extracted_text form_data)
              = text_preview extracted_text).
  { unfold run_checks.
    destruct (str_not (form_get form_data "netContents"));
      now rewrite !record_check_preview. }
  cbv zeta. rewrite E. unfold text_preview.
  destruct (200 <? String.length extracted_text) eqn:El.
  - apply Nat.ltb_lt in El. repeat split.
    + rewrite length_append. pose proof (length_str_take 200 extracted_text).
      change (String.length "...") with 3. lia.
    + apply str_take_take_append. lia.
    + intros H. exfalso. lia.
  - apply Nat.ltb_ge in El. repeat split. lia.
Qed.

Lemma run_checks_preview_witness :
  extracted_text_preview (run_checks (fun _ => "40.0") sample_text sample_form)
  = sample_text.
Proof.
  apply (run_checks_preview (fun _ => "40.0") sample_text sample_form).
  vm_compute. lia.
Defined.

(* ------------------------------------------------------------------ *)
(** ** Words of the patterns *)

Lemma matches_group_free r w g g' :
  matches r w g g' -> group_free r = true -> g' = g.
Proof.
  induction 1 as [| | a b w1 w2 g g1 g2 _ IH1 _ IH2 | a b w g g' _ IH
                  | a b w g g' _ IH | | a w1 w2 g g1 g2 _ IH1 _ IH2 |];
    cbn [group_free]; intros Hf;
    try apply andb_true_iff in Hf as [Hf1 Hf2];
    try reflexivity; try discriminate; auto.
  - rewrite (IH2 Hf2). auto.
  - rewrite (IH2 Hf). auto.
Qed.

Lemma matches_star_class p w g g' :
  matches (RStar (RChar p)) w g g' -> str_forall p w = true.
Proof.
  intros H. remember (RStar (RChar p)) as r eqn:Er.
  induction H as [| | | | | a g | a w1 w2 g g1 g2 Ha _ Hs IH |];
    try discriminate.
  - reflexivity.
  - injection Er as ->. inversion Ha; subst.
    simpl. rewrite (IH eq_refl), andb_true_r. assumption.
Qed.

Lemma matches_lit c w g g' : matches (RLit c) w g g' -> w = String c "".
Proof.
  intros H. inversion H as [| p c' g0 Hc | | | | | |]; subst.
  apply Ascii.eqb_eq in Hc. now subst.
Qed.

Lemma matches_str u w g g' : matches (RStr u) w g g' -> w = u.
Proof.
  revert w g g'. induction u as [|c u IH]; intros w g g' H; cbn [RStr] in H.
  - now inversion H.
  - inversion H as [| | a b w1 w2 g0 g1 g2 H1 H2 | | | | |]; subst.
    apply matches_lit in H1. apply IH in H2. now subst.
Qed.

Lemma matches_number w g g' : matches re_number w g g' -> is_numeral w.
Proof.
  unfold re_number, RPlus, ROpt, re_digit. intros H.
  inversion H as [| | ? ? w1 w2 ? ? ? Hip Hrest | | | | |]; subst.
  inversion Hip as [| | ? ? d ds ? ? ? Hd Hds | | | | |]; subst.
  inversion Hd as [| ? c ? Hc | | | | | |]; subst.
  apply matches_star_class in Hds.
  inversion Hrest as [| | ? ? dot fp ? ? ? Hdot Hfp | | | | |]; subst.
  apply matches_star_class in Hfp.
  exists (String c "" ++ ds), dot, fp. repeat split.
  - discriminate.
  - cbn. now rewrite Hc, Hds.
  - inversion Hdot as [| | | ? ? w0 ? ? Hl | ? ? w0 ? ? He | | |]; subst.
    + right. now apply matches_lit in Hl.
    + left. now inversion He.
  - exact Hfp.
Qed.

(** The shape of a match of a volume pattern. *)
Lemma re_match_volume unit s n g :
  group_free unit = true ->
  re_match (re_volume unit) s = Some (n, g) ->
  exists numeral ws u rest g1 g2,
    s = numeral ++ ws ++ u ++ rest /\ all_space ws = true
    /\ is_numeral numeral /\ matches unit u g1 g2
    /\ group 1 g = numeral /\ group 2 g = u.
Proof.
  intros Hf H. apply re_match_sound in H as (w & s' & -> & Hm & _).
  unfold re_volume in Hm.
  inversion Hm as [| | ? ? w1 w23 ? ? ? Hg H23 | | | | |]; subst.
  inversion Hg as [| | | | | | | ? ? w0 ? gn Hn]; subst.
  inversion H23 as [| | ? ? w2 w3 ? ? ? Hs Hu | | | | |]; subst.
  apply matches_star_space in Hs as [-> Hs].
  inversion Hu as [| | | | | | | ? ? w0 ? ? Hu']; subst.
  pose proof (matches_group_free _ _ _ _ Hu' Hf) as ->.
  exists w1, w2, w3, s', ((1, w1) :: gn), ((1, w1) :: gn).
  repeat split; try assumption.
  - now rewrite !append_assoc.
  - now apply matches_number in Hn.
Qed.

(** The units that the three patterns accept. *)
Lemma volume_unit_words pattern u g1 g2 :
  In pattern
     [RAlt (RStr "ml") (RStr "mL");
      RAlt (RSeq (RStr "fl") (RSeq (RStar re_space) (RStr "oz"))) (RStr "oz");
      RAlt (RStr "l") (RStr "L")] ->
  matches pattern u g1 g2 ->
  is_volume_unit u \/ u = "mL" \/ u = "L".
Proof.
  intros [<- | [<- | [<- | []]]] Hu.
  - inversion Hu as [| | | ? ? ? ? ? Hl | ? ? ? ? ? Hl | | |]; subst.
    + apply (matches_str "ml") in Hl as ->. left. now left.
    + apply (matches_str "mL") in Hl as ->. right. now left.
  - left. inversion Hu as [| | | ? ? ? ? ? Hl | ? ? ? ? ? Hl | | |]; subst.
    + inversion Hl as [| | ? ? w1 w2 ? ? ? Hfl Hrest | | | | |]; subst.
      apply (matches_str "fl") in Hfl as ->.
      inversion Hrest as [| | ? ? w3 w4 ? ? ? Hs Hoz | | | | |]; subst.
      apply matches_star_space in Hs as [_ Hs].
      apply (matches_str "oz") in Hoz as ->.
      right. right. right. now exists w3.
    + apply (matches_str "oz") in Hl as ->. right. now left.
  - inversion Hu as [| | | ? ? ? ? ? Hl | ? ? ? ? ? Hl | | |]; subst.
    + apply (matches_str "l") in Hl as ->. left. right. right. now left.
    + apply (matches_str "L") in Hl as ->. right. now right.
Qed.

Lemma volume_pattern_unit pattern s n g :
  In pattern volume_patterns ->
  re_match pattern s = Some (n, g) ->
  exists numeral ws u rest,
    s = numeral ++ ws ++ u ++ rest /\ all_space ws = true
    /\ is_numeral numeral /\ group 1 g = numeral /\ group 2 g = u
    /\ (is_volume_unit u \/ u = "mL" \/ u = "L").
Proof.
  intros Hp H.
  assert (exists unit,
            pattern = re_volume unit /\ group_free unit = true
            /\ forall u g1 g2, matches unit u g1 g2 ->
                  is_volume_unit u \/ u = "mL" \/ u = "L")
    as (unit & -> & Hf & Hunit).
  { destruct Hp as [<- | [<- | [<- | []]]]; eexists;
      (split; [reflexivity |]); (split; [reflexivity |]);
      intros u g1 g2; apply volume_unit_words; simpl; tauto. }
  apply (re_match_volume _ _ _ _ Hf) in H
    as (numeral & ws & u & rest & g1 & g2 & Hs & Hw & Hn & Hu & H1 & H2).
  exists numeral, ws, u, rest. repeat split; try assumption.
  now apply Hunit in Hu.
Qed.

(* ------------------------------------------------------------------ *)
(** ** Volume candidates *)

Lemma str_take_drop n s : str_take n s ++ str_drop n s = s.
Proof.
  revert s. induction n as [|n IH]; intros [|c s]; simpl; try reflexivity.
  now rewrite IH.
Qed.

Lemma str_lower_fix_append a b :
  str_lower (a ++ b) = a ++ b -> str_lower a = a /\ str_lower b = b.
Proof.
  induction a as [|c a IH]; cbn [String.append str_lower]; [now split |].
  intros H. injection H as Hc H. destruct (IH H) as [Ha Hb].
  now rewrite Hc, Ha.
Qed.

Lemma isdigit_not_space c : Char.isdigit c = true -> Char.isspace c = false.
Proof.
  destruct c as [[] [] [] [] [] [] [] []]; cbv; intros H;
    first [reflexivity | discriminate].
Qed.

Lemma is_numeral_starts w : is_numeral w -> w <> "" /\ starts_space w = false.
Proof.
  intros (ip & dot & fp & -> & Hne & Hip & _).
  destruct ip as [|c ip]; [congruence |]. split; [discriminate |].
  cbn in *. apply andb_true_iff in Hip as [Hc _].
  now apply isdigit_not_space.
Qed.

Lemma is_volume_unit_ends u : is_volume_unit u -> u <> "" /\ ends_space u = false.
Proof.
  intros [-> | [-> | [-> | (ws & _ & ->)]]]; try (split; [discriminate | reflexivity]).
  split; [discriminate |].
  rewrite <- append_assoc, ends_space_append; [reflexivity | discriminate].
Qed.

(** X10. Every volume candidate is a numeral, one space and a unit; the
    unit is ml, oz, l or fl..oz in lowercase (the spellings mL and L of
    the patterns are never produced), and numeral and unit stand in the
    lowercased label with only whitespace between them. *)
Theorem find_volume_candidates text label_vol :
  In label_vol (find_volume text) ->
  exists numeral ws unit,
    label_vol = numeral ++ " " ++ unit
    /\ is_numeral numeral /\ is_volume_unit unit
    /\ all_space ws = true
    /\ str_in (numeral ++ ws ++ unit) (str_lower text) = true.
Proof.
  unfold find_volume. intros H.
  apply in_flat_map in H as (pattern & Hp & H).
  apply in_map_iff in H as ([n1 u1] & <- & H). unfold re_findall2 in H.
  apply in_map_iff in H as ([p g] & E & H). injection E as <- <-.
  apply re_finditer_from_match in H as (_ & n & Hm).
  rewrite Nat.sub_0_r in Hm.
  apply volume_pattern_unit in Hm
    as (numeral & ws & u & rest & Hs & Hw & Hn & H1 & H2 & Hu); [| exact Hp].
  cbn [fst snd]. rewrite H1, H2.
  set (L := str_lower text) in *.
  assert (HL : str_lower (str_drop p L) = str_drop p L).
  { apply (str_lower_fix_append (str_take p L)).
    rewrite str_take_drop. apply str_lower_idem. }
  assert (Hlow : str_lower u = u).
  { rewrite Hs in HL.
    apply str_lower_fix_append in HL as [_ HL].
    apply str_lower_fix_append in HL as [_ HL].
    now apply str_lower_fix_append in HL as [HL _]. }
  assert (Hunit : is_volume_unit u).
  { destruct Hu as [Hu | [-> | ->]]; [exact Hu | discriminate | discriminate]. }
  exists numeral, ws, u.
  destruct (is_numeral_starts _ Hn) as [Hn1 Hn2].
  destruct (is_volume_unit_ends _ Hunit) as [Hu1 Hu2].
  repeat split; try assumption.
  - apply str_strip_id.
    + now rewrite starts_space_append.
    + now rewrite <- append_assoc, ends_space_append.
  - rewrite <- (str_take_drop p L), Hs.
    replace (numeral ++ ws ++ u ++ rest) with ((numeral ++ ws ++ u) ++ rest)
      by now rewrite !append_assoc.
    apply str_in_append.
Qed.

Lemma find_volume_candidates_witness :
  exists numeral ws unit,
    "12 fl  oz" = numeral ++ " " ++ unit
    /\ is_numeral numeral /\ is_volume_unit unit
    /\ all_space ws = true
    /\ str_in (numeral ++ ws ++ unit) (str_lower "Net 12 FL  OZ (355 mL)")
       = true.
Proof.
  apply (find_volume_candidates "Net 12 FL  OZ (355 mL)" "12 fl  oz").
  vm_compute. right. left. reflexivity.
Defined.

(* ------------------------------------------------------------------ *)
(** ** Numerals always convert *)

Lemma append_nil_r s : s ++ "" = s.
Proof. induction s as [|c s IH]; simpl; [reflexivity | now rewrite IH]. Qed.

Lemma str_forall_append p a b :
  str_forall p (a ++ b) = str_forall p a && str_forall p b.
Proof.
  induction a as [|c a IH]; simpl; [reflexivity |].
  now rewrite IH, andb_assoc.
Qed.

Lemma str_forall_weaken (p q : ascii -> bool) s :
  (forall c, p c = true -> q c = true) ->
  str_forall p s = true -> str_forall q s = true.
Proof.
  intros Hpq. induction s as [|c s IH]; simpl; [reflexivity |].
  intros H. apply andb_true_iff in H as [Hc Hs].
  now rewrite (Hpq _ Hc), IH.
Qed.

Lemma is_numeral_chars w : is_numeral w -> str_forall numeral_char w = true.
Proof.
  intros (ip & dot & fp & -> & _ & Hip & Hdot & Hfp).
  rewrite !str_forall_append.
  rewrite (str_forall_weaken Char.isdigit numeral_char ip),
    (str_forall_weaken Char.isdigit numeral_char fp); try assumption;
    try (intros c Hc; unfold numeral_char; now rewrite Hc).
  destruct Hdot as [-> | ->]; reflexivity.
Qed.

Lemma numeral_char_not_underscore c :
  numeral_char c = true -> Ascii.eqb c "_" = false.
Proof.
  destruct c as [[] [] [] [] [] [] [] []]; intros H; vm_compute in H;
    first [discriminate H | reflexivity].
Qed.

Lemma strip_underscores_plain s :
  forall prev, Ascii.eqb prev "_" = false ->
    str_forall numeral_char s = true ->
    strip_underscores prev s = Some s.
Proof.
  induction s as [|c s IH]; intros prev Hp H; cbn [strip_underscores].
  - now rewrite Hp.
  - cbn [str_forall] in H. apply andb_true_iff in H as [Hc Hs].
    pose proof (numeral_char_not_underscore _ Hc) as Hu.
    rewrite Hu, Hp. cbn [andb]. now rewrite (IH c Hu Hs).
Qed.

Lemma digit_first c :
  Char.isdigit c = true ->
  (forall t, take_sign (String c t) = (false, String c t))
  /\ Char.lower c = c
  /\ Ascii.eqb c "i" = false /\ Ascii.eqb c "n" = false.
Proof.
  destruct c as [[] [] [] [] [] [] [] []]; intros H; vm_compute in H;
    first [discriminate H | repeat split].
Qed.

Lemma span_digits_append ds r :
  str_forall Char.isdigit ds = true ->
  span_digits (ds ++ r)
  = (ds ++ fst (span_digits r), snd (span_digits r)).
Proof.
  induction ds as [|c ds IH]; cbn [str_forall String.append].
  - intros _. now destruct (span_digits r).
  - intros H. apply andb_true_iff in H as [Hc Hs].
    cbn [span_digits]. rewrite Hc, (IH Hs). reflexivity.
Qed.

Lemma span_digits_all ds :
  str_forall Char.isdigit ds = true -> span_digits ds = (ds, "").
Proof.
  intros H. rewrite <- (append_nil_r ds) at 1.
  rewrite (span_digits_append _ _ H). cbn. now rewrite append_nil_r.
Qed.

Lemma parse_number_numeral w :
  is_numeral w -> exists m e, parse_number w = Some (m, e).
Proof.
  intros (ip & dot & fp & -> & Hne & Hip & Hdot & Hfp).
  unfold parse_number. destruct Hdot as [-> | ->].
  - cbn [String.append]. rewrite span_digits_all
      by (now rewrite str_forall_append, Hip, Hfp).
    destruct ip as [|c ip]; [congruence |]. cbn. eauto.
  - rewrite (span_digits_append _ _ Hip). cbn [String.append span_digits].
    replace (Char.isdigit ".") with false by reflexivity.
    cbn [fst snd]. rewrite append_nil_r, (span_digits_all _ Hfp).
    destruct ip as [|c ip]; [congruence |]. cbn. eauto.
Qed.

(** [float] accepts every numeral, as a non-negative decimal. *)
Lemma py_float_numeral w :
  is_numeral w ->
  exists m e, py_float w = Some (Float.of_decimal false m e).
Proof.
  intros Hn. destruct (parse_number_numeral _ Hn) as (m & e & Hp).
  exists m, e. unfold py_float.
  rewrite (strip_underscores_plain w "000" eq_refl (is_numeral_chars _ Hn)).
  destruct Hn as (ip & dot & fp & -> & Hne & Hip & _).
  destruct ip as [|c ip]; [congruence |].
  cbn [str_forall] in Hip. apply andb_true_iff in Hip as [Hc _].
  destruct (digit_first _ Hc) as (Hsign & Hlow & Hi & Hnn).
  cbn [String.append] in *. rewrite Hsign.
  cbn [str_lower String.eqb]. rewrite Hlow, Hi, Hnn. cbn [orb].
  now rewrite Hp.
Qed.

Lemma re_match_percent_numeral s n g :
  re_match re_percent s = Some (n, g) -> is_numeral (group 1 g).
Proof.
  intros H. apply re_match_sound in H as (w & s' & -> & Hm & _).
  unfold re_percent in Hm.
  inversion Hm as [| | ? ? w1 w23 ? ? ? Hg H23 | | | | |]; subst.
  inversion Hg as [| | | | | | | ? ? w0 ? gn Hn]; subst.
  inversion H23 as [| | ? ? w2 w3 ? ? ? Hs Hl | | | | |]; subst.
  apply matches_star_space in Hs as [-> _].
  inversion Hl; subst. cbn. now apply matches_number in Hn.
Qed.

(** X11. Every numeral that the percentage pattern finds converts to a
    float, the one nearest to a non-negative decimal: the handler for a
    failed conversion in [find_percentage] is never used. *)
Theorem find_percentage_numerals_convert text m :
  In m (re_findall1 re_percent (str_lower text)) ->
  is_numeral m
  /\ exists digits e, py_float m = Some (Float.of_decimal false digits e).
Proof.
  unfold re_findall1. intros H.
  apply in_map_iff in H as ([p g] & <- & H).
  apply re_finditer_from_match in H as (_ & n & Hm).
  apply re_match_percent_numeral in Hm. cbn [snd].
  split; [exact Hm | now apply py_float_numeral].
Qed.

Lemma find_percentage_numerals_convert_witness :
  exists digits e, py_float "12.50" = Some (Float.of_decimal false digits e).
Proof.
  apply (find_percentage_numerals_convert "ALC. 12.50% by vol" "12.50").
  vm_compute. left. reflexivity.
Defined.

(* ------------------------------------------------------------------ *)
(** ** Labels on which the extractors find nothing *)

Lemma str_in_char c0 c t :
  str_in (String c0 "") (String c t)
  = Ascii.eqb c0 c || str_in (String c0 "") t.
Proof.
  cbn [str_in String.prefix]. destruct (ascii_dec c0 c) as [-> | Hne].
  - now rewrite Ascii.eqb_refl, prefix_nil.
  - apply Ascii.eqb_neq in Hne. now rewrite Hne.
Qed.

Lemma lower_percent c : Ascii.eqb "%" (Char.lower c) = Ascii.eqb "%" c.
Proof. all_chars c. Qed.

Lemma lower_isdigit c : Char.isdigit (Char.lower c) = Char.isdigit c.
Proof. all_chars c. Qed.

Lemma str_in_percent_lower s : str_in "%" (str_lower s) = str_in "%" s.
Proof.
  induction s as [|c s IH]; [reflexivity |].
  cbn [str_lower]. now rewrite !str_in_char, lower_percent, IH.
Qed.

Lemma re_finditer_nil r s :
  (forall p n g, re_match r (str_drop p s) <> Some (S n, g)) ->
  re_finditer r s = [].
Proof.
  intros H. unfold re_finditer.
  destruct (re_finditer_from r 0 0 s) as [|[p g] l] eqn:E; [reflexivity |].
  assert (Hin : In (p, g) (re_finditer_from r 0 0 s))
    by (rewrite E; now left).
  apply re_finditer_from_match in Hin as (_ & n & Hm).
  rewrite Nat.sub_0_r in Hm. now apply H in Hm.
Qed.

(** X12. On a label without a percent sign no percentage is extracted,
    so the alcohol check fails with "not found on label" for every
    expected value that parses. *)
Theorem check_alcohol_no_percent_sign float_str label_text form_abv v :
  str_in "%" label_text = false ->
  py_float (re_sub re_percent_or_space "" form_abv) = Some v ->
  find_percentage label_text = []
  /\ check_alcohol float_str label_text form_abv
     = (false, "Alcohol content not found on label (expected "
               ++ float_str v ++ "%)").
Proof.
  intros Hno Hv.
  assert (E : find_percentage label_text = []).
  { unfold find_percentage, re_findall1. rewrite re_finditer_nil; [reflexivity |].
    intros p n g Hm.
    apply re_match_percent in Hm as (numeral & ws & rest & Hs & _ & _).
    rewrite <- str_in_percent_lower in Hno.
    rewrite <- (str_take_drop p (str_lower label_text)), Hs in Hno.
    replace (str_take p (str_lower label_text)
             ++ numeral ++ ws ++ "%" ++ rest)
      with ((str_take p (str_lower label_text) ++ numeral ++ ws)
            ++ "%" ++ rest) in Hno by now rewrite !append_assoc.
    rewrite str_in_append in Hno. discriminate. }
  split; [exact E |].
  rewrite (check_alcohol_parsed float_str label_text _ _ Hv), E. reflexivity.
Qed.

Lemma check_alcohol_no_percent_sign_witness :
  check_alcohol (fun _ => "40.0") "Old Barrel Whiskey 40 ALC/VOL" "40%"
  = (false, "Alcohol content not found on label (expected 40.0%)").
Proof.
  apply (check_alcohol_no_percent_sign (fun _ => "40.0")
           "Old Barrel Whiskey 40 ALC/VOL" "40%" (Float.of_Z 40));
    vm_compute; reflexivity.
Defined.

Lemma str_forall_lower_nodigit s :
  str_forall (fun c => negb (Char.isdigit c)) (str_lower s)
  = str_forall (fun c => negb (Char.isdigit c)) s.
Proof.
  induction s as [|c s IH]; [reflexivity |].
  cbn [str_lower str_forall]. now rewrite lower_isdigit, IH.
Qed.

Lemma str_forall_drop p n s :
  str_forall p s = true -> str_forall p (str_drop n s) = true.
Proof.
  revert s. induction n as [|n IH]; intros [|c s]; cbn; try easy.
  intros H. apply andb_true_iff in H as [_ H]. now apply IH.
Qed.

Lemma is_numeral_no_digit_free w rest :
  is_numeral w ->
  str_forall (fun c => negb (Char.isdigit c)) (w ++ rest) = false.
Proof.
  intros (ip & dot & fp & -> & Hne & Hip & _).
  destruct ip as [|c ip]; [congruence |].
  cbn in *. apply andb_true_iff in Hip as [-> _]. reflexivity.
Qed.

Lemma find_volume_match text label_vol :
  In label_vol (find_volume text) ->
  exists pattern p n g,
    In pattern volume_patterns
    /\ re_match pattern (str_drop p (str_lower text)) = Some (S n, g)
    /\ label_vol = str_strip (group 1 g ++ " " ++ group 2 g).
Proof.
  unfold find_volume. intros H.
  apply in_flat_map in H as (pattern & Hp & H).
  apply in_map_iff in H as ([n1 u1] & <- & H). unfold re_findall2 in H.
  apply in_map_iff in H as ([p g] & E & H). injection E as <- <-.
  apply re_finditer_from_match in H as (_ & n & Hm).
  rewrite Nat.sub_0_r in Hm. now exists pattern, p, n, g.
Qed.

(** X13. On a label without a digit no volume is extracted, so the
    net-contents check fails with "not found on label" for every
    expected value that is provided. *)
Theorem check_volume_no_digit label_text form_volume :
  str_forall (fun c => negb (Char.isdigit c)) label_text = true ->
  form_volume <> "" ->
  find_volume label_text = []
  /\ check_volume label_text form_volume
     = (false, "Net contents not found on label (expected "
               ++ form_volume ++ ")").
Proof.
  intros Hno Hne.
  assert (E : find_volume label_text = []).
  { destruct (find_volume label_text) as [|c l] eqn:E; [reflexivity |].
    assert (Hin : In c (find_volume label_text)) by (rewrite E; now left).
    apply find_volume_match in Hin as (pattern & p & n & g & Hp & Hm & _).
    apply (volume_pattern_unit _ _ _ _ Hp) in Hm
      as (numeral & ws & u & rest & Hs & _ & Hn & _).
    rewrite <- str_forall_lower_nodigit in Hno.
    apply (str_forall_drop _ p) in Hno. rewrite Hs in Hno.
    now rewrite is_numeral_no_digit_free in Hno. }
  split; [exact E |]. now apply check_volume_no_candidate.
Qed.

Lemma check_volume_no_digit_witness :
  check_volume "Old Barrel Whiskey mL" "750 ml"
  = (false, "Net contents not found on label (expected 750 ml)").
Proof.
  apply (check_volume_no_digit "Old Barrel Whiskey mL" "750 ml");
    [vm_compute; reflexivity | discriminate].
Defined.

(* ------------------------------------------------------------------ *)
(** ** Edge cases of the alcohol and net-contents matchers *)

(** X14. The alcohol check reads the expected value with its percent
    signs and whitespace deleted: two expected values that agree once
    these are deleted, and that parse, get the same answer. *)
Theorem check_alcohol_ignores_percent_and_space
    float_str label_text form_abv form_abv' v :
  re_sub re_percent_or_space "" form_abv
  = re_sub re_percent_or_space "" form_abv' ->
  py_float (re_sub re_percent_or_space "" form_abv) = Some v ->
  check_alcohol float_str label_text form_abv
  = check_alcohol float_str label_text form_abv'.
Proof.
  intros E Hv.
  rewrite (check_alcohol_parsed float_str label_text form_abv v Hv).
  rewrite E in Hv.
  now rewrite (check_alcohol_parsed float_str label_text form_abv' v Hv).
Qed.

Lemma check_alcohol_ignores_percent_and_space_witness :
  check_alcohol (fun _ => "?") "ALC 12.5% BY VOL" (String "009" "12.5 %")
  = check_alcohol (fun _ => "?") "ALC 12.5% BY VOL" "12.5".
Proof.
  apply (check_alcohol_ignores_percent_and_space (fun _ => "?")
           "ALC 12.5% BY VOL" (String "009" "12.5 %") "12.5"
           (Float.of_decimal false 125 (-1)));
    vm_compute; reflexivity.
Defined.

(** A percentage in range is within the tolerance of itself. *)
Lemma abv_close_refl val : in_percent_range val = true -> abv_close val val = true.
Proof.
  intros H. apply in_percent_range_number in H.
  destruct val as [[] | | | [] m e]; try contradiction; try reflexivity.
  unfold abv_close, Float.sub, SFsub. rewrite Z.sub_diag. reflexivity.
Qed.

(** X15. An expected value that parses to one of the percentages of the
    label passes the alcohol check. *)
Theorem check_alcohol_same_value float_str label_text form_abv v :
  py_float (re_sub re_percent_or_space "" form_abv) = Some v ->
  In v (find_percentage label_text) ->
  exists label_val,
    In label_val (find_percentage label_text)
    /\ check_alcohol float_str label_text form_abv
       = (true, "Alcohol content matches: " ++ float_str label_val ++ "%").
Proof.
  intros Hv Hin.
  rewrite (check_alcohol_parsed float_str label_text form_abv v Hv).
  assert (Hr : in_percent_range v = true).
  { unfold find_percentage in Hin.
    apply in_flat_map in Hin as (m & _ & Hin).
    destruct (py_float m) as [val|]; [| destruct Hin].
    destruct (in_percent_range val) eqn:Er; [| destruct Hin].
    destruct Hin as [<- | []]. exact Er. }
  unfold first_close.
  destruct (find_percentage label_text) as [|first rest] eqn:El;
    [destruct Hin |].
  destruct (List.find _ _) as [c|] eqn:E.
  - apply find_some in E as [Hc _]. now exists c.
  - apply (find_none _ _ E) in Hin. now rewrite (abv_close_refl _ Hr) in Hin.
Qed.

Lemma check_alcohol_same_value_witness :
  exists label_val,
    In label_val (find_percentage "Port 19.5% alc., 5% sugar")
    /\ check_alcohol (fun _ => "19.5") "Port 19.5% alc., 5% sugar" "19.5%"
       = (true, "Alcohol content matches: 19.5%").
Proof.
  apply (check_alcohol_same_value (fun _ => "19.5")
           "Port 19.5% alc., 5% sugar" "19.5%"
           (Float.of_decimal false 195 (-1)));
    [vm_compute; reflexivity | vm_compute; left; reflexivity].
Defined.

Lemma re_sub_percent_or_space_all s :
  str_forall (fun c => Ascii.eqb c "%" || Char.isspace c) s = true ->
  re_sub re_percent_or_space "" s = "".
Proof.
  induction s as [|c s IH]; [reflexivity |].
  cbn [str_forall]. intros H. apply andb_true_iff in H as [Hc Hs].
  now rewrite re_sub_percent_or_space, Hc, IH.
Qed.

(** X16. An expected alcohol content that holds nothing but percent
    signs and whitespace is provided but does not parse: the check fails
    with "Invalid alcohol content" and quotes the value as given. *)
Theorem check_alcohol_blank float_str label_text form_abv :
  form_abv <> "" ->
  str_forall (fun c => Ascii.eqb c "%" || Char.isspace c) form_abv = true ->
  check_alcohol float_str label_text form_abv
  = (false, "Invalid alcohol content: " ++ form_abv).
Proof.
  intros Hne Hb. unfold check_alcohol. apply str_not_false in Hne.
  now rewrite Hne, (re_sub_percent_or_space_all _ Hb).
Qed.

Lemma check_alcohol_blank_witness :
  check_alcohol (fun _ => "?") "ALC 12.5% BY VOL" " % "
  = (false, "Invalid alcohol content:  % ").
Proof.
  apply (check_alcohol_blank (fun _ => "?") "ALC 12.5% BY VOL" " % ");
    [discriminate | reflexivity].
Defined.

(** X17. An expected net contents that holds only whitespace counts as
    provided and agrees with every candidate: on a label with a volume
    the check succeeds and reports the first candidate. *)
Theorem check_volume_whitespace_only label_text form_volume first rest :
  form_volume <> "" -> all_space form_volume = true ->
  find_volume label_text = first :: rest ->
  check_volume label_text form_volume
  = (true, "Net contents matches: " ++ first).
Proof.
  intros Hne Hsp Hv.
  rewrite (check_volume_candidates _ _ Hne _ _ Hv).
  rewrite (normalize_text_all_space _ Hsp). cbn [List.find].
  unfold volume_agrees. now rewrite str_in_nil.
Qed.

Lemma check_volume_whitespace_only_witness :
  check_volume "Net 750 mL" "  " = (true, "Net contents matches: 750 ml").
Proof.
  apply (check_volume_whitespace_only "Net 750 mL" "  " "750 ml" []);
    [discriminate | reflexivity | reflexivity].
Defined.

Lemma str_in_refl s : str_in s s = true.
Proof.
  apply str_in_prefix. rewrite <- (append_nil_r s) at 2. apply prefix_append.
Qed.

(** X18. An expected net contents whose normal form is that of a
    candidate of the label passes the check. *)
Theorem check_volume_same_value label_text form_volume label_vol :
  form_volume <> "" ->
  In label_vol (find_volume label_text) ->
  normalize_text form_volume = normalize_text label_vol ->
  exists found,
    In found (find_volume label_text)
    /\ check_volume label_text form_volume
       = (true, "Net contents matches: " ++ found).
Proof.
  intros Hne Hin Hn.
  destruct (find_volume label_text) as [|first rest] eqn:Ev; [destruct Hin |].
  rewrite (check_volume_candidates _ _ Hne _ _ Ev).
  destruct (List.find _ _) as [c|] eqn:E.
  - apply find_some in E as [Hc _]. now exists c.
  - apply (find_none _ _ E) in Hin. unfold volume_agrees in Hin.
    now rewrite Hn, str_in_refl in Hin.
Qed.

Lemma check_volume_same_value_witness :
  exists found,
    In found (find_volume "Net Contents 750ML")
    /\ check_volume "Net Contents 750ML" " 750   mL"
       = (true, "Net contents matches: " ++ found).
Proof.
  apply (check_volume_same_value "Net Contents 750ML" " 750   mL" "750 ml");
    [discriminate | vm_compute; left; reflexivity | vm_compute; reflexivity].
Defined.

(* ------------------------------------------------------------------ *)
(** ** The case of the label *)

Lemma normalize_text_lower text :
  normalize_text (str_lower text) = normalize_text text.
Proof. now rewrite !normalize_text_squeeze, str_lower_idem. Qed.

Lemma find_percentage_lower text :
  find_percentage (str_lower text) = find_percentage text.
Proof. unfold find_percentage. now rewrite str_lower_idem. Qed.

Lemma find_volume_lower text :
  find_volume (str_lower text) = find_volume text.
Proof. unfold find_volume. now rewrite str_lower_idem. Qed.

(** X19. The verdicts do not depend on the case of the label: each of
    the four matchers answers on the lowercased label as on the label
    itself, and so do the list of checks and the overall result. *)
Theorem label_case_insensitive float_str label_text :
  (forall form_value field_name,
     check_match (str_lower label_text) form_value field_name
     = check_match label_text form_value field_name)
  /\ (forall form_abv,
        check_alcohol float_str (str_lower label_text) form_abv
        = check_alcohol float_str label_text form_abv)
  /\ (forall form_volume,
        check_volume (str_lower label_text) form_volume
        = check_volume label_text form_volume)
  /\ check_warning (str_lower label_text) = check_warning label_text
  /\ (forall form_data,
        checks (run_checks float_str (str_lower label_text) form_data)
        = checks (run_checks float_str label_text form_data)
        /\ overall_match (run_checks float_str (str_lower label_text) form_data)
           = overall_match (run_checks float_str label_text form_data)).
Proof.
  assert (Hm : forall form_value field_name,
             check_match (str_lower label_text) form_value field_name
             = check_match label_text form_value field_name).
  { intros. unfold check_match. now rewrite normalize_text_lower. }
  assert (Ha : forall form_abv,
             check_alcohol float_str (str_lower label_text) form_abv
             = check_alcohol float_str label_text form_abv).
  { intros. unfold check_alcohol. now rewrite find_percentage_lower. }
  assert (Hv : forall form_volume,
             check_volume (str_lower label_text) form_volume
             = check_volume label_text form_volume).
  { intros. unfold check_volume. now rewrite find_volume_lower. }
  assert (Hw : check_warning (str_lower label_text) = check_warning label_text).
  { unfold check_warning. now rewrite normalize_text_lower. }
  repeat split; try assumption.
  - destruct (run_checks_entries float_str (str_lower label_text) form_data)
      as [-> _].
    destruct (run_checks_entries float_str label_text form_data) as [-> _].
    now rewrite !Hm, Ha, Hv, Hw.
  - destruct (run_checks_entries float_str (str_lower label_text) form_data)
      as [_ ->].
    destruct (run_checks_entries float_str label_text form_data) as [_ ->].
    now rewrite !Hm, Ha, Hv, Hw.
Qed.

Lemma verify_label_status_witness :
  snd (verify_label (fun _ => "40.0") string Returned (fun _ => Raised "tesseract failed")
         (sample_request sample_form sample_text)) = 500.
Proof.
  apply (verify_label_status (fun _ => "40.0") string Returned
           (fun _ => Raised "tesseract failed")
           (sample_request sample_form sample_text)).
  exists {| filename := "label.png"; content := sample_text |}.
  split; [reflexivity |]. split; [discriminate |]. right.
  exists sample_text, "tesseract failed". now split.
Defined.
